(** * Spaced-repetition schedule generator and calendar export encoder

    A shallow embedding of [spacedRepetition.ts] (schedule generator, query
    helpers, calendar grid) and [calendarExport.ts] (iCal encoder), together
    with the part of the ECMAScript [Date] object those two files rely on.

    Conventions.
    - A JavaScript [number] that holds an integer (time values, day counts,
      chapter and review numbers) is a [Z].
    - A [Date] is its time value: milliseconds since 1970-01-01T00:00:00Z.
      Time values are unbounded here; the Invalid Date produced by TimeClip
      beyond 8.64e15 ms is outside the model.
    - The host time zone is a fixed offset [tza] (LocalTZA, milliseconds east
      of Greenwich), a parameter of every operation that reads or writes
      local calendar fields; daylight-saving transitions are outside the
      model.
    - A JavaScript string is a [string]; the characters the encoder inspects
      are all ASCII, and no byte of a multi-byte UTF-8 character is ASCII.
    - Object identity (which [Date] object a field points to) is modelled
      separately in [Module Heap], over a store of objects. *)

From Stdlib Require Import ZArith Lia String Ascii DecimalString.
From stdpp Require Import base list sorting gmap strings.

Local Open Scope Z_scope.

(** ** Strings and arrays: the built-ins the two source files call *)

Module Js.

Definition LF : ascii := "010"%char.
Definition CR : ascii := "013"%char.
Definition CRLF : string := String CR (String LF EmptyString).

(** [Number::toString] on an integer. *)
Definition numberToString (n : Z) : string :=
  NilZero.string_of_int (Z.to_int n).

Definition digitChar (d : Z) : ascii := ascii_of_nat (48 + Z.to_nat d).

(** The [n] low decimal digits of [v], most significant first: the
    zero-padded fields of [toISOString]. *)
Fixpoint digits (n : nat) (v : Z) : string :=
  match n with
  | O => EmptyString
  | S k => digits k (v / 10) +:+ String (digitChar (v mod 10)) EmptyString
  end.

(** [s.replace(/[class]/g, by)] for a pattern that matches one character. *)
Fixpoint replaceAll (class : ascii -> bool) (by_ : string) (s : string) : string :=
  match s with
  | EmptyString => EmptyString
  | String c rest =>
      if class c then by_ +:+ replaceAll class by_ rest
      else String c (replaceAll class by_ rest)
  end.

(** [s.split(sep)[0]] for a one-character separator. *)
Fixpoint splitHead (sep : ascii) (s : string) : string :=
  match s with
  | EmptyString => EmptyString
  | String c rest => if Ascii.eqb c sep then EmptyString else String c (splitHead sep rest)
  end.

(** [arr.join(sep)]. *)
Definition join (sep : string) (arr : list string) : string :=
  String.concat sep arr.

(** [arr.push(x)], as the array it leaves behind. *)
Definition push {A : Type} (arr : list A) (x : A) : list A := arr ++ [x].

(** [arr.forEach((x, i) => body)]: [body] is given the element, its index
    and the state the callback updates, and returns the new state. *)
Fixpoint forEachFrom {A St : Type} (body : A -> nat -> St -> St)
    (arr : list A) (i : nat) (s : St) : St :=
  match arr with
  | [] => s
  | x :: rest => forEachFrom body rest (S i) (body x i s)
  end.

Definition forEach {A St : Type} (body : A -> nat -> St -> St)
    (arr : list A) (s : St) : St :=
  forEachFrom body arr 0%nat s.

(** [Array.prototype.sort(comparefn)]: a stable sort (ECMAScript 2019 on);
    [x] goes before [y] when [comparefn(x, y) < 0], and elements that
    compare equal keep their order. Each element is inserted, last to
    first, in front of the first element it does not follow. *)
Fixpoint insertSorted {A : Type} (comparefn : A -> A -> Z) (x : A) (l : list A) : list A :=
  match l with
  | [] => [x]
  | y :: ys =>
      if comparefn x y <=? 0 then x :: y :: ys
      else y :: insertSorted comparefn x ys
  end.

Definition sort {A : Type} (comparefn : A -> A -> Z) (arr : list A) : list A :=
  foldr (insertSorted comparefn) [] arr.

(** [new Map(entries)]: later entries overwrite earlier ones. *)
Definition newMap {V : Type} (entries : list (string * V)) : gmap string V :=
  foldl (fun m kv => <[kv.1 := kv.2]> m) ∅ entries.

(** [Math.min(x, ...xs)] and [Math.max(x, ...xs)] on a non-empty spread. *)
Definition mathMin (x : Z) (xs : list Z) : Z := foldl Z.min x xs.
Definition mathMax (x : Z) (xs : list Z) : Z := foldl Z.max x xs.

End Js.

Import Js.

(** ** ECMAScript date arithmetic (ECMA-262, Date objects) *)

Module JsDate.

Definition msPerDay : Z := 86400000.
Definition msPerHour : Z := 3600000.
Definition msPerMinute : Z := 60000.
Definition msPerSecond : Z := 1000.

Definition Day (t : Z) : Z := t / msPerDay.
Definition TimeWithinDay (t : Z) : Z := t mod msPerDay.

Definition DaysInYear (y : Z) : Z :=
  if negb (y mod 4 =? 0) then 365
  else if negb (y mod 100 =? 0) then 366
  else if negb (y mod 400 =? 0) then 365
  else 366.

Definition DayFromYear (y : Z) : Z :=
  365 * (y - 1970) + (y - 1969) / 4 - (y - 1901) / 100 + (y - 1601) / 400.

(** The largest [y] with [DayFromYear y <= d]: a first guess from the mean
    length of a year, corrected by at most one. *)
Definition YearFromDay (d : Z) : Z :=
  let y0 := 1970 + (400 * d) / 146097 in
  if DayFromYear (y0 + 1) <=? d then y0 + 1
  else if DayFromYear y0 <=? d then y0
  else y0 - 1.

Definition YearFromTime (t : Z) : Z := YearFromDay (Day t).

Definition InLeapYear (t : Z) : Z :=
  if DaysInYear (YearFromTime t) =? 366 then 1 else 0.

Definition DayWithinYear (t : Z) : Z := Day t - DayFromYear (YearFromTime t).

(** Day number within the year on which month [m] (0 = January) starts. *)
Definition monthStart (leap m : Z) : Z :=
  match m with
  | 0 => 0
  | 1 => 31
  | 2 => 59 + leap
  | 3 => 90 + leap
  | 4 => 120 + leap
  | 5 => 151 + leap
  | 6 => 181 + leap
  | 7 => 212 + leap
  | 8 => 243 + leap
  | 9 => 273 + leap
  | 10 => 304 + leap
  | _ => 334 + leap
  end.

Definition monthOfYearDay (leap dwy : Z) : Z :=
  if dwy <? 31 then 0
  else if dwy <? 59 + leap then 1
  else if dwy <? 90 + leap then 2
  else if dwy <? 120 + leap then 3
  else if dwy <? 151 + leap then 4
  else if dwy <? 181 + leap then 5
  else if dwy <? 212 + leap then 6
  else if dwy <? 243 + leap then 7
  else if dwy <? 273 + leap then 8
  else if dwy <? 304 + leap then 9
  else if dwy <? 334 + leap then 10
  else 11.

Definition MonthFromTime (t : Z) : Z :=
  monthOfYearDay (InLeapYear t) (DayWithinYear t).

Definition DateFromTime (t : Z) : Z :=
  DayWithinYear t - monthStart (InLeapYear t) (MonthFromTime t) + 1.

Definition WeekDay (t : Z) : Z := (Day t + 4) mod 7.

Definition HourFromTime (t : Z) : Z := (t / msPerHour) mod 24.
Definition MinFromTime (t : Z) : Z := (t / msPerMinute) mod 60.
Definition SecFromTime (t : Z) : Z := (t / msPerSecond) mod 60.
Definition msFromTime (t : Z) : Z := t mod msPerSecond.

Definition MakeTime (hour min sec ms : Z) : Z :=
  hour * msPerHour + min * msPerMinute + sec * msPerSecond + ms.

(** [MakeDay]: the day number of the first of month [mn] of year [ym], plus
    [date - 1]; months outside 0..11 carry into the year. *)
Definition MakeDay (year month date : Z) : Z :=
  let ym := year + month / 12 in
  let mn := month mod 12 in
  let leap := if DaysInYear ym =? 366 then 1 else 0 in
  DayFromYear ym + monthStart leap mn + date - 1.

Definition MakeDate (day time : Z) : Z := day * msPerDay + time.

(** [Date.prototype.toISOString]: UTC fields, four-digit year when the
    year is within 0..9999 and a signed six-digit year otherwise. *)
Definition isoYear (y : Z) : string :=
  if (0 <=? y) && (y <=? 9999) then digits 4 y
  else (if y <? 0 then "-" else "+") +:+ digits 6 (Z.abs y).

Definition toISOString (t : Z) : string :=
  isoYear (YearFromTime t) +:+ "-" +:+ digits 2 (MonthFromTime t + 1)
    +:+ "-" +:+ digits 2 (DateFromTime t)
    +:+ "T" +:+ digits 2 (HourFromTime t)
    +:+ ":" +:+ digits 2 (MinFromTime t)
    +:+ ":" +:+ digits 2 (SecFromTime t)
    +:+ "." +:+ digits 3 (msFromTime t) +:+ "Z".

(** A [Date] object is represented by its time value. *)
Definition Date : Type := Z.

Section Host.
(** LocalTZA of the host, in milliseconds. *)
Variable tza : Z.

Definition LocalTime (t : Z) : Z := t + tza.
Definition UTC (t : Z) : Z := t - tza.

Definition getTime (d : Date) : Z := d.
Definition getFullYear (d : Date) : Z := YearFromTime (LocalTime d).
Definition getMonth (d : Date) : Z := MonthFromTime (LocalTime d).
Definition getDate (d : Date) : Z := DateFromTime (LocalTime d).
Definition getDay (d : Date) : Z := WeekDay (LocalTime d).

(** [new Date(year, month, date)]: local midnight of that calendar day. *)
Definition newDateYMD (year month date : Z) : Date :=
  UTC (MakeDate (MakeDay year month date) (MakeTime 0 0 0 0)).

(** [d.setDate(dt)]: the time value [d] holds afterwards. *)
Definition setDate (d : Date) (dt : Z) : Date :=
  let t := LocalTime d in
  UTC (MakeDate (MakeDay (YearFromTime t) (MonthFromTime t) dt)
                (TimeWithinDay t)).

(** [d.setHours(hour, min, sec, ms)]. *)
Definition setHours (d : Date) (hour min sec ms : Z) : Date :=
  let t := LocalTime d in
  UTC (MakeDate (Day t) (MakeTime hour min sec ms)).
End Host.

End JsDate.

Import JsDate.

(** ** spacedRepetition.ts *)

Module SpacedRepetition.

Record LearningModule := {
  id : string;
  title : string;
  chapter : Z;
  concepts : list string;
  reviewQuestions : list string;
  tutorialAnchor : string
}.

Record ScheduledReview := {
  moduleId : string;
  date : Date;
  reviewNumber : Z;
  isInitialLearning : bool
}.

Record LearningSchedule := {
  startDate : Date;
  modules : list LearningModule;
  reviews : list ScheduledReview
}.

Record DateRange := { start : Date; end_ : Date }.

Definition REVIEW_INTERVALS : list Z := [1; 3; 7; 14; 30; 60].

Definition getTutorialModules : list LearningModule :=
  [ {| id := "ch1-scraper"; title := "Web Scraper"; chapter := 1;
       concepts := ["requests library"; "BeautifulSoup parsing";
                    "JSON file handling"; "Rate limiting with sleep()"];
       reviewQuestions :=
         ["What is the purpose of rate limiting when scraping websites?";
          "How does BeautifulSoup find elements by CSS selector?";
          "Why do we save scraped data to JSON files?"];
       tutorialAnchor := "#chapter-1-web-scraper" |};
    {| id := "ch2-database"; title := "Database"; chapter := 2;
       concepts := ["SQLite database"; "Creating tables with SQL";
                    "Junction tables for many-to-many relationships";
                    "SQL queries and joins"];
       reviewQuestions :=
         ["What is a junction table and when do you need one?";
          "How do you query data that spans multiple tables?";
          "What are the benefits of using a database over JSON files?"];
       tutorialAnchor := "#chapter-2-database" |};
    {| id := "ch3-api"; title := "API Server"; chapter := 3;
       concepts := ["HTTP server with Python"; "JSON API responses";
                    "CORS headers for web access"];
       reviewQuestions :=
         ["What is CORS and why is it needed for web APIs?";
          "How do you return JSON data from a Python HTTP handler?"];
       tutorialAnchor := "#chapter-3-api" |};
    {| id := "ch4-frontend"; title := "Frontend"; chapter := 4;
       concepts := ["React components"; "TypeScript types and interfaces";
                    "Vite build tool"; "useState and useEffect hooks";
                    "Props and component composition"];
       reviewQuestions :=
         ["What is the difference between useState and useEffect?";
          "How do TypeScript interfaces help catch bugs?";
          "When should you split code into separate components?"];
       tutorialAnchor := "#chapter-4-frontend" |};
    {| id := "ch5-testing"; title := "Testing"; chapter := 5;
       concepts := ["Unit testing with Vitest"; "Pure function testing";
                    "Test assertions and expectations"];
       reviewQuestions :=
         ["What makes a function easy to test?";
          "How do you structure tests using describe and it blocks?"];
       tutorialAnchor := "#chapter-5-testing" |};
    {| id := "ch6-deploy"; title := "Deployment"; chapter := 6;
       concepts := ["Production builds"; "GitHub Pages hosting";
                    "Static site deployment"];
       reviewQuestions := [];
       tutorialAnchor := "#chapter-6-deploy" |} ].

Section Host.
Variable tza : Z.

(** [new Date(date)] copies the time value; [setDate] then moves it. *)
Definition addDays (date : Date) (days : Z) : Date :=
  let result := date in
  setDate tza result (getDate tza result + days).

(** The comparator handed to [reviews.sort]. *)
Definition byDate (a b : ScheduledReview) : Z :=
  getTime (date a) - getTime (date b).

(** Body of the outer [modules.forEach]: what one module adds to
    [reviews]. *)
Definition scheduleModule (startDate : Date)
    (module : LearningModule) (index : nat)
    (reviews : list ScheduledReview) : list ScheduledReview :=
  let learningDay := Z.of_nat index in
  let learningDate := addDays startDate learningDay in
  let reviews :=
    push reviews {| moduleId := id module; date := learningDate;
                    reviewNumber := 0; isInitialLearning := true |} in
  forEach (fun interval reviewIndex reviews =>
             push reviews {| moduleId := id module;
                             date := addDays learningDate interval;
                             reviewNumber := Z.of_nat reviewIndex + 1;
                             isInitialLearning := false |})
          REVIEW_INTERVALS reviews.

(** The contents of [reviews] when the outer loop is done, before the
    sort. *)
Definition generatedReviews (startDate : Date)
    (modules : list LearningModule) : list ScheduledReview :=
  forEach (scheduleModule startDate) modules [].

Definition generateSchedule (startDate : Date)
    (modules : list LearningModule) : LearningSchedule :=
  let reviews := generatedReviews startDate modules in
  let reviews := sort byDate reviews in
  {| startDate := startDate; modules := modules; reviews := reviews |}.

Definition isSameDay (date1 date2 : Date) : bool :=
  (getFullYear tza date1 =? getFullYear tza date2)
  && (getMonth tza date1 =? getMonth tza date2)
  && (getDate tza date1 =? getDate tza date2).

Definition getReviewsForDate (schedule : LearningSchedule) (date_ : Date)
    : list ScheduledReview :=
  List.filter (fun review => isSameDay (date review) date_) (reviews schedule).

(** [Array.prototype.find]: [None] is [undefined]. *)
Definition getModuleById (schedule : LearningSchedule) (moduleId_ : string)
    : option LearningModule :=
  List.find (fun m => String.eqb (id m) moduleId_) (modules schedule).

(** The first branch is the [reviews.length === 0] test: [dates] is empty
    exactly when [reviews] is. *)
Definition getScheduleDateRange (schedule : LearningSchedule) : DateRange :=
  match List.map (fun r => getTime (date r)) (reviews schedule) with
  | [] => {| start := startDate schedule; end_ := startDate schedule |}
  | t :: ts => {| start := mathMin t ts; end_ := mathMax t ts |}
  end.

Definition generateCalendarDays (startDate : Date) : list Date :=
  let firstDayOfGrid := startDate in
  let firstDayOfGrid :=
    setDate tza firstDayOfGrid
            (getDate tza firstDayOfGrid - getDay tza firstDayOfGrid) in
  List.map (fun i => addDays firstDayOfGrid (Z.of_nat i)) (seq 0 42).
End Host.

Definition getReviewLabel (review : ScheduledReview) : string :=
  if isInitialLearning review then "Learn"
  else "Review " +:+ numberToString (reviewNumber review).

End SpacedRepetition.

Import SpacedRepetition.

(** ** calendarExport.ts *)

Module CalendarExport.

Definition isDashOrColon (c : ascii) : bool :=
  Ascii.eqb c "-" || Ascii.eqb c ":".

(** [d.toISOString().replace(/[-:]/g, '').split('.')[0] + 'Z'] *)
Definition compactISO (d : Date) : string :=
  splitHead "." (replaceAll isDashOrColon "" (toISOString d)) +:+ "Z".

Section Host.
Variable tza : Z.

Definition formatICSDate (date : Date) : string :=
  let eventDate := date in
  let eventDate := setHours tza eventDate 9 0 0 0 in
  compactISO eventDate.

Definition formatICSDateEnd (date : Date) : string :=
  let eventDate := date in
  let eventDate := setHours tza eventDate 10 0 0 0 in
  compactISO eventDate.
End Host.

Definition escapeICSText (text : string) : string :=
  replaceAll (Ascii.eqb LF) "\n"
    (replaceAll (Ascii.eqb ",") "\,"
      (replaceAll (Ascii.eqb ";") "\;"
        (replaceAll (Ascii.eqb "\") "\\" text))).

(** The [lines] array of [generateEventDescription], as it is when it is
    joined. *)
Definition descriptionLines (review : ScheduledReview)
    (module : LearningModule) : list string :=
  let lines : list string := [] in
  let lines :=
    if isInitialLearning review then
      push lines ("Learn Chapter " +:+ numberToString (chapter module)
                    +:+ ": " +:+ title module)
    else
      push lines ("Review " +:+ numberToString (reviewNumber review)
                    +:+ " of 6 for Chapter " +:+ numberToString (chapter module)) in
  let lines := push lines "" in
  let lines := push lines "Concepts to review:" in
  let lines :=
    forEach (fun concept (_ : nat) lines => push lines ("• " +:+ concept))
            (concepts module) lines in
  let lines :=
    if (0 <? length (reviewQuestions module))%nat then
      let lines := push lines "" in
      let lines := push lines "Review questions:" in
      forEach (fun question i lines =>
                 push lines (numberToString (Z.of_nat i + 1) +:+ ". " +:+ question))
              (reviewQuestions module) lines
    else lines in
  let lines := push lines "" in
  let lines := push lines ("Tutorial: tutorial.html" +:+ tutorialAnchor module) in
  lines.

Definition generateEventDescription (review : ScheduledReview)
    (module : LearningModule) : string :=
  join (String LF EmptyString) (descriptionLines review module).

Definition generateEventTitle (review : ScheduledReview)
    (module : LearningModule) : string :=
  let label := getReviewLabel review in
  label +:+ ": " +:+ title module.

Section Host.
Variable tza : Z.

(** The seven lines of an event block, before they are joined. *)
Definition eventLines (review : ScheduledReview) (module : LearningModule)
    : list string :=
  let title := generateEventTitle review module in
  let description := generateEventDescription review module in
  let uid :=
    moduleId review +:+ "-r" +:+ numberToString (reviewNumber review)
      +:+ "-" +:+ numberToString (getTime (date review))
      +:+ "@tvwriter-explorer" in
  [ "BEGIN:VEVENT";
    "DTSTART:" +:+ formatICSDate tza (date review);
    "DTEND:" +:+ formatICSDateEnd tza (date review);
    "SUMMARY:" +:+ escapeICSText title;
    "DESCRIPTION:" +:+ escapeICSText description;
    "UID:" +:+ uid;
    "END:VEVENT" ].

Definition generateICSEvent (review : ScheduledReview)
    (module : LearningModule) : string :=
  join CRLF (eventLines review module).

(** [reviews.map(...).filter(event => event !== null)] *)
Definition icsEvents (reviews : list ScheduledReview)
    (modules : list LearningModule) : list string :=
  let moduleMap := newMap (List.map (fun m => (id m, m)) modules) in
  omap (fun review =>
          match moduleMap !! moduleId review with
          | None => None
          | Some module => Some (generateICSEvent review module)
          end) reviews.

Definition generateICSFile (reviews : list ScheduledReview)
    (modules : list LearningModule) : string :=
  let events := icsEvents reviews modules in
  join CRLF
    (["BEGIN:VCALENDAR";
      "VERSION:2.0";
      "PRODID:-//TV Writer Explorer//Learning Schedule//EN";
      "CALSCALE:GREGORIAN";
      "METHOD:PUBLISH"] ++ events ++ ["END:VCALENDAR"]).
End Host.

End CalendarExport.

Import CalendarExport.

(** ** Objects and references

    The same operations over a store of objects, to tell a fresh object from
    a shared one. A [Date], the modules array, the reviews array and an array
    of dates are objects at a location; a record field of type [Date] or
    array holds the location. A computation takes the store and returns its
    result and the store it leaves, or [None] where the JavaScript would
    throw (a location that does not hold an object of the expected kind). *)

Module Heap.

Definition loc : Type := nat.

Record ReviewRef := {
  moduleId : string;
  date : loc;
  reviewNumber : Z;
  isInitialLearning : bool
}.

Inductive object : Type :=
| ODate (timeValue : Z)
| OModules (elems : list LearningModule)
| OReviews (elems : list ReviewRef)
| ODates (elems : list loc).

Abbreviation store := (gmap loc object).

Record ScheduleRef := { startDate : loc; modules : loc; reviews : loc }.
Record RangeRef := { start : loc; end_ : loc }.

Definition Comp (A : Type) : Type := store -> option (A * store).

Definition ret {A : Type} (a : A) : Comp A := fun σ => Some (a, σ).

Definition bind {A B : Type} (c : Comp A) (k : A -> Comp B) : Comp B :=
  fun σ => match c σ with
           | Some (a, σ') => k a σ'
           | None => None
           end.

Declare Scope comp_scope.
Delimit Scope comp_scope with comp.
Notation "'let!' x := c 'in' k" := (bind c (fun x => k))
  (at level 10, x name, c at level 100, k at level 200) : comp_scope.
Notation "'do!' c 'in' k" := (bind c (fun _ => k))
  (at level 10, c at level 100, k at level 200) : comp_scope.
Local Open Scope comp_scope.

(** A new object, at a location the store does not use yet. *)
Definition alloc (o : object) : Comp loc :=
  fun σ => let l := fresh (dom σ) in Some (l, <[l := o]> σ).

Definition readDate (l : loc) : Comp Z :=
  fun σ => match σ !! l with
           | Some (ODate t) => Some (t, σ)
           | _ => None
           end.

Definition writeDate (l : loc) (t : Z) : Comp unit :=
  fun σ => match σ !! l with
           | Some (ODate _) => Some (tt, <[l := ODate t]> σ)
           | _ => None
           end.

Definition readModules (l : loc) : Comp (list LearningModule) :=
  fun σ => match σ !! l with
           | Some (OModules ms) => Some (ms, σ)
           | _ => None
           end.

Definition readReviews (l : loc) : Comp (list ReviewRef) :=
  fun σ => match σ !! l with
           | Some (OReviews rs) => Some (rs, σ)
           | _ => None
           end.

Definition writeReviews (l : loc) (rs : list ReviewRef) : Comp unit :=
  fun σ => match σ !! l with
           | Some (OReviews _) => Some (tt, <[l := OReviews rs]> σ)
           | _ => None
           end.

Definition pushReview (l : loc) (r : ReviewRef) : Comp unit :=
  let! rs := readReviews l in writeReviews l (push rs r).

Definition pushDate (l : loc) (d : loc) : Comp unit :=
  fun σ => match σ !! l with
           | Some (ODates ds) => Some (tt, <[l := ODates (push ds d)]> σ)
           | _ => None
           end.

(** [arr.forEach((x, i) => body)] where the callback works on the store. *)
Fixpoint forEachFrom {A : Type} (body : A -> nat -> Comp unit)
    (arr : list A) (i : nat) : Comp unit :=
  match arr with
  | [] => ret tt
  | x :: rest => do! body x i in forEachFrom body rest (S i)
  end.

Definition forEach {A : Type} (body : A -> nat -> Comp unit)
    (arr : list A) : Comp unit :=
  forEachFrom body arr 0%nat.

(** The time value a location holds (0 where it holds no [Date], which a
    typed review never does). *)
Definition timeAt (σ : store) (l : loc) : Z :=
  match σ !! l with
  | Some (ODate t) => t
  | _ => 0
  end.

(** [reviews.sort((a, b) => a.date.getTime() - b.date.getTime())], in
    place. *)
Definition sortReviews (l : loc) : Comp unit :=
  fun σ => bind (readReviews l)
                (fun rs => writeReviews l
                   (sort (fun a b => timeAt σ (date a) - timeAt σ (date b))
                         rs))
                σ.

Section Host.
Variable tza : Z.

(** [new Date(date)] *)
Definition newDate (d : loc) : Comp loc :=
  let! t := readDate d in alloc (ODate t).

Definition addDays (d : loc) (days : Z) : Comp loc :=
  let! result := newDate d in
  let! t := readDate result in
  do! writeDate result (setDate tza t (getDate tza t + days)) in
  ret result.

(** Body of the outer [modules.forEach], on the array at [reviews]. *)
Definition scheduleModule (startDate reviews : loc)
    (module : LearningModule) (index : nat) : Comp unit :=
  let learningDay := Z.of_nat index in
  let! learningDate := addDays startDate learningDay in
  do! pushReview reviews
        {| moduleId := id module; date := learningDate;
           reviewNumber := 0; isInitialLearning := true |} in
  forEach (fun interval reviewIndex =>
             let! d := addDays learningDate interval in
             pushReview reviews
               {| moduleId := id module; date := d;
                  reviewNumber := Z.of_nat reviewIndex + 1;
                  isInitialLearning := false |})
          REVIEW_INTERVALS.

Definition generateSchedule (startDate modules : loc) : Comp ScheduleRef :=
  let! reviews := alloc (OReviews []) in
  let! elems := readModules modules in
  do! forEach (scheduleModule startDate reviews) elems in
  do! sortReviews reviews in
  ret {| startDate := startDate; modules := modules; reviews := reviews |}.

Definition getScheduleDateRange (schedule : ScheduleRef) : Comp RangeRef :=
  let! rs := readReviews (reviews schedule) in
  fun σ =>
    match List.map (fun r => timeAt σ (date r)) rs with
    | [] => ret {| start := startDate schedule; end_ := startDate schedule |} σ
    | t :: ts =>
        (let! s := alloc (ODate (mathMin t ts)) in
         let! e := alloc (ODate (mathMax t ts)) in
         ret {| start := s; end_ := e |}) σ
    end.

Definition generateCalendarDays (startDate : loc) : Comp loc :=
  let! days := alloc (ODates []) in
  let! firstDayOfGrid := newDate startDate in
  let! t := readDate firstDayOfGrid in
  do! writeDate firstDayOfGrid (setDate tza t (getDate tza t - getDay tza t)) in
  do! forEach (fun i (_ : nat) =>
             let! d := addDays firstDayOfGrid (Z.of_nat i) in pushDate days d)
          (seq 0 42) in
  ret days.

Definition formatICSDate (d : loc) : Comp string :=
  let! eventDate := newDate d in
  let! t := readDate eventDate in
  do! writeDate eventDate (setHours tza t 9 0 0 0) in
  let! t := readDate eventDate in
  ret (compactISO t).

Definition formatICSDateEnd (d : loc) : Comp string :=
  let! eventDate := newDate d in
  let! t := readDate eventDate in
  do! writeDate eventDate (setHours tza t 10 0 0 0) in
  let! t := readDate eventDate in
  ret (compactISO t).
End Host.

(** The review record a reference stands for in a store. *)
Definition represents (σ : store) (r : ReviewRef) (v : ScheduledReview) : Prop :=
  moduleId r = SpacedRepetition.moduleId v
  /\ σ !! date r = Some (ODate (SpacedRepetition.date v))
  /\ reviewNumber r = SpacedRepetition.reviewNumber v
  /\ isInitialLearning r = SpacedRepetition.isInitialLearning v.

(** What a loop of the generator maintains: the caller's store [σ0] is
    part of the current one, the reviews array at [rl] is not the
    caller's, it holds references that stand for [vs], and their dates are
    not the caller's either. *)
Definition generating (σ0 : store) (rl : loc) (σ : store)
    (vs : list ScheduledReview) : Prop :=
  (σ0 ⊆ σ) /\ (rl ∉ dom σ0)
  /\ exists rs, σ !! rl = Some (OReviews rs)
               /\ Forall2 (represents σ) rs vs
               /\ Forall (fun r => date r ∉ dom σ0) rs.

(** The same for the loop of the calendar grid and its array of dates. *)
Definition collecting (σ0 : store) (dl : loc) (σ : store)
    (vs : list Date) : Prop :=
  (σ0 ⊆ σ) /\ (dl ∉ dom σ0)
  /\ exists ds, σ !! dl = Some (ODates ds)
               /\ Forall2 (fun l v => σ !! l = Some (ODate v)) ds vs
               /\ Forall (fun l => l ∉ dom σ0) ds.

(** Every object of [σ] other than the one at [rl] is still in [σ']. *)
Definition framed (rl : loc) (σ σ' : store) : Prop :=
  forall l o, l <> rl -> σ !! l = Some o -> σ' !! l = Some o.

(** [c] run in [σ] returns, with a result and a store that satisfy [Q]. *)
Definition returns {A : Type} (c : Comp A) (σ : store)
    (Q : A -> store -> Prop) : Prop :=
  exists a σ', c σ = Some (a, σ') /\ Q a σ'.

End Heap.

(** ** The schedule as the specification words it *)

Module Spec.

(** The interval ladder. *)
Definition ladder : list Z := [1; 3; 7; 14; 30; 60].

(** [d] plus [n] days, as a time value. *)
Definition plusDays (d : Date) (n : Z) : Date := d + n * msPerDay.

(** The module at catalog index [i] is first learned on [start + i] days. *)
Definition learningDate (start : Date) (i : nat) : Date :=
  plusDays start (Z.of_nat i).

(** One initial-learning event, then the six spaced reviews, each offset
    from the module's own learning date. *)
Definition moduleEvents (start : Date) (i : nat) (m : LearningModule)
    : list ScheduledReview :=
  {| moduleId := id m; date := learningDate start i;
     reviewNumber := 0; isInitialLearning := true |}
  :: imap (fun k interval =>
             {| moduleId := id m;
                date := plusDays (learningDate start i) interval;
                reviewNumber := Z.of_nat k + 1;
                isInitialLearning := false |}) ladder.

(** The unique identifier of an event, from the three values it is
    derived from. *)
Definition uid (moduleId_ : string) (reviewNumber_ timestamp : Z) : string :=
  moduleId_ +:+ "-r" +:+ numberToString reviewNumber_
    +:+ "-" +:+ numberToString timestamp +:+ "@tvwriter-explorer".

(** iCal TEXT quoting (RFC 5545, 3.3.11): backslash doubled, semicolon and
    comma prefixed with a backslash, a newline written backslash-n. *)
Definition escapeChar (c : ascii) : string :=
  if Ascii.eqb c "\" then "\\"%string
  else if Ascii.eqb c ";" then "\;"%string
  else if Ascii.eqb c "," then "\,"%string
  else if Ascii.eqb c LF then "\n"%string
  else String c EmptyString.

Fixpoint escapeText (s : string) : string :=
  match s with
  | EmptyString => EmptyString
  | String c rest => escapeChar c +:+ escapeText rest
  end.

(** What a calendar client reads back from a quoted TEXT value. *)
Fixpoint unescapeText (s : string) : string :=
  match s with
  | EmptyString => EmptyString
  | String c rest =>
      if Ascii.eqb c "\" then
        match rest with
        | EmptyString => String c EmptyString
        | String e rest' =>
            if Ascii.eqb e "n" || Ascii.eqb e "N"
            then String LF (unescapeText rest')
            else String e (unescapeText rest')
        end
      else String c (unescapeText rest)
  end.

(** Reading a compact timestamp [YYYYMMDDTHHMMSSZ]. *)
Definition digitValue (c : ascii) : option Z :=
  let n := Z.of_nat (nat_of_ascii c) in
  if (48 <=? n) && (n <=? 57) then Some (n - 48) else None.

Fixpoint parseDigits (n : nat) (acc : Z) (s : string) : option (Z * string) :=
  match n with
  | O => Some (acc, s)
  | S k =>
      match s with
      | EmptyString => None
      | String c rest =>
          match digitValue c with
          | Some d => parseDigits k (10 * acc + d) rest
          | None => None
          end
      end
  end.

Definition expectChar (c : ascii) (s : string) : option string :=
  match s with
  | String c' rest => if Ascii.eqb c c' then Some rest else None
  | EmptyString => None
  end.

Record Timestamp := {
  year : Z; month : Z; day : Z; hour : Z; minute : Z; second : Z
}.

Definition parseCompact (s : string) : option Timestamp :=
  '(y, s) ← parseDigits 4 0 s;
  '(mo, s) ← parseDigits 2 0 s;
  '(d, s) ← parseDigits 2 0 s;
  s ← expectChar "T" s;
  '(h, s) ← parseDigits 2 0 s;
  '(mi, s) ← parseDigits 2 0 s;
  '(se, s) ← parseDigits 2 0 s;
  s ← expectChar "Z" s;
  match s with
  | EmptyString =>
      Some {| year := y; month := mo; day := d;
              hour := h; minute := mi; second := se |}
  | _ => None
  end.

(** The instant a UTC timestamp names (months count from 1). *)
Definition instantOf (ts : Timestamp) : Z :=
  MakeDate (MakeDay (year ts) (month ts - 1) (day ts))
           (MakeTime (hour ts) (minute ts) (second ts) 0).

(** The UTC calendar date and time of day of a time value, to the
    second. *)
Definition utcFields (t : Z) : Timestamp :=
  {| year := YearFromTime t; month := MonthFromTime t + 1;
     day := DateFromTime t; hour := HourFromTime t;
     minute := MinFromTime t; second := SecFromTime t |}.

(** [h] o'clock UTC on the UTC calendar date of [t]. *)
Definition utcAt (t : Z) (h : Z) : Timestamp :=
  {| year := YearFromTime t; month := MonthFromTime t + 1;
     day := DateFromTime t; hour := h; minute := 0; second := 0 |}.

(** [h] o'clock on the calendar date [d] has on the host. *)
Definition localAt (tza : Z) (d : Date) (h : Z) : Timestamp :=
  {| year := getFullYear tza d; month := getMonth tza d + 1;
     day := getDate tza d; hour := h; minute := 0; second := 0 |}.

(** A review record that satisfies the data model. *)
Definition wellFormed (r : ScheduledReview) : Prop :=
  0 <= reviewNumber r <= 6 /\ isInitialLearning r = (reviewNumber r =? 0).

End Spec.

(** A review whose [moduleId] is the id of some module of the list. *)
Definition hasModule (modules : list LearningModule) (r : ScheduledReview) : bool :=
  existsb (fun m => String.eqb (id m) (moduleId r)) modules.

(** The reviews that carry a given module id. *)
Definition hasId (sid : string) (r : ScheduledReview) : bool :=
  String.eqb (moduleId r) sid.

(** Comparators of the form [(a, b) => key(a) - key(b)] and the order they
    sort by. *)
Definition keyCmp {A : Type} (key : A -> Z) (a b : A) : Z := key a - key b.
Definition keyLe {A : Type} (key : A -> Z) (a b : A) : Prop := key a <= key b.

(** ** More of the built-ins: the [Date] constructor, [setMonth],
    [URLSearchParams] *)

Module JsMore.

Section Host.
Variable tza : Z.

(** [new Date(year, month, date)] in full: a year from 0 to 99 stands for
    1900 to 1999. *)
Definition dateConstructor (year month date : Z) : Date :=
  let yr := if (0 <=? year) && (year <=? 99) then 1900 + year else year in
  newDateYMD tza yr month date.

(** [d.setMonth(month)]: the day of the month and the time of day are
    kept, and a day the month does not have runs over into the next. *)
Definition setMonth (d : Date) (month : Z) : Date :=
  let t := LocalTime tza d in
  UTC tza (MakeDate (MakeDay (YearFromTime t) month (DateFromTime t))
                    (TimeWithinDay t)).
End Host.

(** The application/x-www-form-urlencoded serializer of the URL Standard,
    which [URLSearchParams.prototype.toString] runs: a space becomes [+],
    the bytes of [A-Za-z0-9*-._] are kept, and every other byte becomes
    [%] and two upper-case hexadecimal digits. *)
Definition isAlphanumeric (c : ascii) : bool :=
  let n := nat_of_ascii c in
  ((48 <=? n) && (n <=? 57) || (65 <=? n) && (n <=? 90)
   || (97 <=? n) && (n <=? 122))%nat.

Definition isFormSafe (c : ascii) : bool :=
  isAlphanumeric c || Ascii.eqb c "*" || Ascii.eqb c "-"
  || Ascii.eqb c "." || Ascii.eqb c "_".

Definition hexDigit (n : nat) : ascii :=
  if (n <? 10)%nat then ascii_of_nat (48 + n) else ascii_of_nat (55 + n).

Definition percentEncode (c : ascii) : string :=
  let n := nat_of_ascii c in
  String "%" (String (hexDigit (n / 16)) (String (hexDigit (n mod 16)) EmptyString)).

Definition formEncodeChar (c : ascii) : string :=
  if Ascii.eqb c " " then "+"%string
  else if isFormSafe c then String c EmptyString
  else percentEncode c.

Fixpoint formEncode (s : string) : string :=
  match s with
  | EmptyString => EmptyString
  | String c rest => formEncodeChar c +:+ formEncode rest
  end.

(** [new URLSearchParams(record).toString()]: the entries in the order of
    the record, [name=value] joined by [&]. *)
Definition searchParamsToString (params : list (string * string)) : string :=
  join "&" (List.map (fun p => formEncode p.1 +:+ "=" +:+ formEncode p.2) params).

End JsMore.

Import JsMore.

(** ** calendarExport.ts, the calendar-service link *)

Module CalendarLink.

Section Host.
Variable tza : Z.

(** The entries of [params], before they are serialized. *)
Definition linkParams (review : ScheduledReview) (module : LearningModule)
    : list (string * string) :=
  let title := generateEventTitle review module in
  let description := generateEventDescription review module in
  let startDate := date review in
  let startDate := setHours tza startDate 9 0 0 0 in
  let endDate := date review in
  let endDate := setHours tza endDate 10 0 0 0 in
  let formatGoogleDate := compactISO in
  [ ("action", "TEMPLATE");
    ("text", title);
    ("dates", formatGoogleDate startDate +:+ "/" +:+ formatGoogleDate endDate);
    ("details", description) ].

Definition generateGoogleCalendarURL (review : ScheduledReview)
    (module : LearningModule) : string :=
  "https://calendar.google.com/calendar/render?"
    +:+ searchParamsToString (linkParams review module).
End Host.

End CalendarLink.

Import CalendarLink.

(** ** LearningSchedule.tsx: the month shown and its navigation *)

Module Component.

Section Host.
Variable tza : Z.

(** [firstOfMonth] of the [calendarDays] memo. *)
Definition firstOfMonth (calendarMonth : Date) : Date :=
  dateConstructor tza (getFullYear tza calendarMonth)
                  (getMonth tza calendarMonth) 1.

Definition calendarDays (calendarMonth : Date) : list Date :=
  generateCalendarDays tza (firstOfMonth calendarMonth).

Definition isCurrentMonth (calendarMonth date : Date) : bool :=
  getMonth tza date =? getMonth tza calendarMonth.

(** The state updaters of [handlePrevMonth] and [handleNextMonth]. *)
Definition prevMonth (prev : Date) : Date :=
  let newMonth := prev in
  setMonth tza newMonth (getMonth tza newMonth - 1).

Definition nextMonth (prev : Date) : Date :=
  let newMonth := prev in
  setMonth tza newMonth (getMonth tza newMonth + 1).
End Host.

End Component.

Import Component.

(** ** Reading back what the encoders write *)

Module Reading.

(** All characters of [s] satisfy [p]. *)
Fixpoint allChars (p : ascii -> bool) (s : string) : bool :=
  match s with
  | EmptyString => true
  | String c rest => p c && allChars p rest
  end.

Definition isNot (c : ascii) (x : ascii) : bool := negb (Ascii.eqb x c).

(** What the serializer writes for a name or a value: kept characters,
    [+] and [%]; never [=], [&], [#] or a space. *)
Definition isEncoded (c : ascii) : bool :=
  isFormSafe c || Ascii.eqb c "+" || Ascii.eqb c "%".

(** The characters a serialized query is made of. *)
Definition isQueryChar (c : ascii) : bool :=
  isFormSafe c || Ascii.eqb c "+" || Ascii.eqb c "%"
  || Ascii.eqb c "=" || Ascii.eqb c "&".

(** The pieces of [s] between occurrences of [sep]. *)
Fixpoint splitOn (sep : ascii) (s : string) : list string :=
  match s with
  | EmptyString => [EmptyString]
  | String c rest =>
      if Ascii.eqb c sep then EmptyString :: splitOn sep rest
      else match splitOn sep rest with
           | piece :: pieces => String c piece :: pieces
           | [] => [String c EmptyString]
           end
  end.

(** [s] cut at its first [sep]: what is before it and what is after. *)
Fixpoint cutAt (sep : ascii) (s : string) : string * string :=
  match s with
  | EmptyString => (EmptyString, EmptyString)
  | String c rest =>
      if Ascii.eqb c sep then (EmptyString, rest)
      else let '(before, after) := cutAt sep rest in (String c before, after)
  end.

Definition hexValue (c : ascii) : option nat :=
  let n := nat_of_ascii c in
  if ((48 <=? n) && (n <=? 57))%nat then Some (n - 48)%nat
  else if ((65 <=? n) && (n <=? 70))%nat then Some (n - 55)%nat
  else if ((97 <=? n) && (n <=? 102))%nat then Some (n - 87)%nat
  else None.

(** The application/x-www-form-urlencoded decoding of one name or value:
    [+] is a space and [%XY] the byte with that hexadecimal code. *)
Fixpoint formDecode (s : string) : string :=
  match s with
  | EmptyString => EmptyString
  | String c rest =>
      if Ascii.eqb c "+" then String " " (formDecode rest)
      else if Ascii.eqb c "%" then
        match rest with
        | String h (String l rest') =>
            match hexValue h, hexValue l with
            | Some a, Some b => String (ascii_of_nat (16 * a + b)) (formDecode rest')
            | _, _ => String c (formDecode rest)
            end
        | _ => String c (formDecode rest)
        end
      else String c (formDecode rest)
  end.

(** The application/x-www-form-urlencoded parser: the query is cut at every
    [&], empty pieces are skipped, each piece is cut at its first [=], and
    name and value are decoded. *)
Definition parseQuery (query : string) : list (string * string) :=
  List.map (fun piece => let '(name, value) := cutAt "=" piece in
                         (formDecode name, formDecode value))
           (List.filter (fun piece => negb (String.eqb piece EmptyString))
                        (splitOn "&" query)).

(** The lines of a text whose lines end in CR LF. *)
Fixpoint splitLines (s : string) : list string :=
  match s with
  | EmptyString => [EmptyString]
  | String c rest =>
      let more := match splitLines rest with
                  | line :: lines => String c line :: lines
                  | [] => [String c EmptyString]
                  end in
      if Ascii.eqb c CR then
        match rest with
        | String c' rest' =>
            if Ascii.eqb c' LF then EmptyString :: splitLines rest' else more
        | EmptyString => more
        end
      else more
  end.

End Reading.

(** * Properties *)

(** Case analysis on every integer test in the goal. *)
Ltac case_eqb :=
  repeat match goal with
         | |- context [?a =? ?b] => destruct (Z.eqb_spec a b); simpl
         end.

Ltac case_ltb :=
  repeat match goal with
         | |- context [?a <? ?b] => destruct (Z.ltb_spec a b)
         end.

(** The twelve months. *)
Ltac month_cases mn H :=
  assert (H : mn = 0 \/ mn = 1 \/ mn = 2 \/ mn = 3 \/ mn = 4 \/ mn = 5
              \/ mn = 6 \/ mn = 7 \/ mn = 8 \/ mn = 9 \/ mn = 10 \/ mn = 11)
    by lia.

(** ** Facts about dates *)

Section DateFacts.

Lemma DayFromYear_succ y : DayFromYear (y + 1) = DayFromYear y + DaysInYear y.
Proof.
  unfold DayFromYear, DaysInYear.
  case_eqb; Z.div_mod_to_equations; lia.
Qed.

Lemma YearFromDay_spec d :
  DayFromYear (YearFromDay d) <= d < DayFromYear (YearFromDay d + 1).
Proof.
  unfold YearFromDay.
  set (y0 := 1970 + 400 * d / 146097).
  destruct (Z.leb_spec (DayFromYear (y0 + 1)) d) as [H1|H1].
  - split; [lia|]. unfold DayFromYear in *. subst y0.
    Z.div_mod_to_equations; lia.
  - destruct (Z.leb_spec (DayFromYear y0) d) as [H2|H2].
    + lia.
    + replace (y0 - 1 + 1) with y0 by lia. split; [|lia].
      unfold DayFromYear in *. subst y0. Z.div_mod_to_equations; lia.
Qed.

Lemma monthOfYearDay_range leap dwy : 0 <= monthOfYearDay leap dwy <= 11.
Proof.
  unfold monthOfYearDay.
  case_ltb; lia.
Qed.

Lemma MonthFromTime_range t : 0 <= MonthFromTime t <= 11.
Proof. apply monthOfYearDay_range. Qed.

(** [MakeDay] on the fields of [t] itself, with another day of the month. *)
Lemma MakeDay_fields t dt :
  MakeDay (YearFromTime t) (MonthFromTime t) dt = Day t - DateFromTime t + dt.
Proof.
  pose proof (MonthFromTime_range t) as Hm.
  unfold MakeDay.
  rewrite (Z.div_small (MonthFromTime t) 12), (Z.mod_small (MonthFromTime t) 12) by lia.
  rewrite Z.add_0_r.
  unfold DateFromTime, DayWithinYear, InLeapYear. lia.
Qed.

Lemma MakeDate_Day t n :
  MakeDate (Day t + n) (TimeWithinDay t) = t + n * msPerDay.
Proof.
  unfold MakeDate, Day, TimeWithinDay.
  pose proof (Z.div_mod t msPerDay ltac:(done)). lia.
Qed.

Lemma setDate_getDate tza d n :
  setDate tza d (getDate tza d + n) = d + n * msPerDay.
Proof.
  unfold setDate, getDate. rewrite MakeDay_fields.
  replace (Day (LocalTime tza d) - DateFromTime (LocalTime tza d)
           + (DateFromTime (LocalTime tza d) + n))
    with (Day (LocalTime tza d) + n) by lia.
  rewrite MakeDate_Day. unfold UTC, LocalTime. lia.
Qed.

Lemma addDays_eq tza d n : addDays tza d n = Spec.plusDays d n.
Proof. apply setDate_getDate. Qed.

Lemma Day_plusDays t n : Day (Spec.plusDays t n) = Day t + n.
Proof.
  unfold Day, Spec.plusDays. rewrite Z.div_add by done. lia.
Qed.

Lemma TimeWithinDay_plusDays t n :
  TimeWithinDay (Spec.plusDays t n) = TimeWithinDay t.
Proof. unfold TimeWithinDay, Spec.plusDays. by rewrite Z.mod_add. Qed.

Lemma LocalTime_plusDays tza t n :
  LocalTime tza (Spec.plusDays t n) = Spec.plusDays (LocalTime tza t) n.
Proof. unfold LocalTime, Spec.plusDays. lia. Qed.

Lemma YearFromDay_unique y d :
  DayFromYear y <= d < DayFromYear (y + 1) -> YearFromDay d = y.
Proof.
  intros Hy. pose proof (YearFromDay_spec d) as HY.
  generalize dependent (YearFromDay d). intros Y HY.
  unfold DayFromYear in *. Z.div_mod_to_equations. lia.
Qed.

(** [MakeDay] is what ECMA-262 asks for: the first of the month it finds is a
    day whose year, month and date are the ones requested. *)
Lemma MakeDay_first_of_month ym mn :
  0 <= mn <= 11 ->
  let t := MakeDate (MakeDay ym mn 1) 0 in
  YearFromTime t = ym /\ MonthFromTime t = mn /\ DateFromTime t = 1.
Proof.
  intros Hmn t.
  assert (Hday : Day t = MakeDay ym mn 1).
  { subst t. unfold MakeDate, Day. rewrite Z.add_0_r. by apply Z.div_mul. }
  unfold MakeDay in Hday.
  rewrite (Z.div_small mn 12), (Z.mod_small mn 12), Z.add_0_r in Hday by lia.
  set (leap := if DaysInYear ym =? 366 then 1 else 0) in *.
  assert (Hleap : DaysInYear ym = 365 + leap).
  { subst leap. unfold DaysInYear.
    case_eqb; reflexivity. }
  assert (Hl : leap = 0 \/ leap = 1) by (subst leap; destruct (_ =? _); auto).
  assert (Hms : 0 <= monthStart leap mn < 365).
  { month_cases mn Hc.
    repeat (destruct Hc as [->|Hc]; [simpl; lia|]). subst mn. simpl. lia. }
  assert (Hy : YearFromTime t = ym).
  { unfold YearFromTime. apply YearFromDay_unique.
    rewrite DayFromYear_succ, Hday, Hleap. lia. }
  assert (Hin : InLeapYear t = leap) by (unfold InLeapYear; by rewrite Hy).
  assert (Hdwy : DayWithinYear t = monthStart leap mn).
  { unfold DayWithinYear. rewrite Hy, Hday. lia. }
  assert (Hmo : MonthFromTime t = mn).
  { unfold MonthFromTime. rewrite Hin, Hdwy.
    month_cases mn Hc. unfold monthOfYearDay.
    repeat (destruct Hc as [->|Hc];
            [simpl monthStart;
             case_ltb; lia|]).
    subst mn. simpl monthStart.
    case_ltb; lia. }
  split; [done|]. split; [done|].
  unfold DateFromTime. rewrite Hin, Hmo, Hdwy. lia.
Qed.

End DateFacts.

(** ** Facts about the array built-ins *)

Section SortFacts.
Context {A : Type} (key : A -> Z).

Local Abbreviation cmp := (keyCmp key).
Local Abbreviation le := (keyLe key).

Lemma insertSorted_perm x l : insertSorted cmp x l ≡ₚ x :: l.
Proof.
  induction l as [|y ys IH]; simpl; [done|].
  destruct (cmp x y <=? 0); [done|].
  rewrite IH. apply Permutation_swap.
Qed.

Lemma sort_perm l : sort cmp l ≡ₚ l.
Proof.
  induction l as [|x l IH]; simpl; [done|].
  unfold sort in *. simpl. by rewrite insertSorted_perm, IH.
Qed.

Lemma insertSorted_sorted x l :
  StronglySorted le l -> StronglySorted le (insertSorted cmp x l).
Proof.
  induction 1 as [|y ys Hs IH Hall]; simpl.
  - repeat constructor.
  - destruct (Z.leb_spec (cmp x y) 0) as [Hle|Hgt]; unfold keyCmp, keyLe in *; simpl in *.
    + constructor; [by constructor|].
      constructor; [lia|].
      eapply Forall_impl; [exact Hall|]. simpl. intros; lia.
    + constructor; [done|].
      rewrite insertSorted_perm. constructor; [lia|done].
Qed.

Lemma sort_sorted l : StronglySorted le (sort cmp l).
Proof.
  induction l as [|x l IH]; [constructor|].
  by apply insertSorted_sorted.
Qed.

(** Filtering commutes with an insertion into a sorted array. *)
Lemma filter_insertSorted (p : A -> bool) x l :
  StronglySorted le l ->
  List.filter p (insertSorted cmp x l) =
  if p x then insertSorted cmp x (List.filter p l) else List.filter p l.
Proof.
  induction 1 as [|y ys Hs IH Hall]; simpl.
  - by destruct (p x).
  - destruct (Z.leb_spec (cmp x y) 0) as [Hle|Hgt]; simpl.
    + destruct (p x) eqn:Hx, (p y) eqn:Hy; simpl; try done.
      * destruct (Z.leb_spec (cmp x y) 0); [done|lia].
      * (* x goes in front of whatever survives the filter *)
        clear IH Hs. induction ys as [|z zs IHz]; simpl; [done|].
        inversion Hall as [|? ? Hyz Hall']; subst.
        destruct (p z); simpl.
        -- unfold keyCmp, keyLe in *; simpl in *.
           destruct (Z.leb_spec (key x - key z) 0); [done|lia].
        -- by apply IHz.
    + rewrite IH. destruct (p x) eqn:Hx, (p y) eqn:Hy; simpl; try done.
      destruct (Z.leb_spec (cmp x y) 0); [lia|done].
Qed.

Lemma filter_sort (p : A -> bool) l :
  List.filter p (sort cmp l) = sort cmp (List.filter p l).
Proof.
  induction l as [|x l IH]; [done|].
  change (sort cmp (x :: l)) with (insertSorted cmp x (sort cmp l)).
  rewrite filter_insertSorted by apply sort_sorted.
  simpl. destruct (p x); simpl; by rewrite IH.
Qed.

Lemma sort_sorted_id l : StronglySorted le l -> sort cmp l = l.
Proof.
  induction 1 as [|x l Hs IH Hall]; [done|].
  change (sort cmp (x :: l)) with (insertSorted cmp x (sort cmp l)).
  rewrite IH. destruct l as [|y ys]; [done|]. simpl.
  inversion Hall; subst. unfold keyCmp, keyLe in *; simpl in *.
  destruct (Z.leb_spec (key x - key y) 0); [done|lia].
Qed.

(** Stability: the elements with one key come out in the order they went
    in. *)
Lemma sort_stable d l :
  List.filter (fun a => key a =? d) (sort cmp l) =
  List.filter (fun a => key a =? d) l.
Proof.
  rewrite filter_sort. apply sort_sorted_id.
  induction l as [|x l IH]; simpl; [constructor|].
  destruct (Z.eqb_spec (key x) d) as [Hx|Hx]; [|done].
  constructor; [done|].
  apply Forall_forall. intros y Hy. apply list_elem_of_In, filter_In in Hy.
  destruct Hy as [_ Hy]. apply Z.eqb_eq in Hy. unfold keyLe. lia.
Qed.
End SortFacts.

(** ** The schedule generator *)

Section GeneratorFacts.

Lemma forEachFrom_push {A B : Type} (body : A -> nat -> list B -> list B)
    (f : nat -> A -> list B) :
  (forall x i s, body x i s = s ++ f i x) ->
  forall arr i s,
    forEachFrom body arr i s = s ++ concat (imap (fun j => f (i + j)%nat) arr).
Proof.
  intros Hbody. induction arr as [|x arr IH]; intros i s; simpl.
  - by rewrite app_nil_r.
  - rewrite IH, Hbody, <- app_assoc. f_equal.
    rewrite Nat.add_0_r. f_equal. f_equal.
    apply imap_ext. intros j y _. simpl. f_equal. lia.
Qed.

Lemma scheduleModule_eq tza start m i s :
  scheduleModule tza start m i s = s ++ Spec.moduleEvents start i m.
Proof.
  unfold scheduleModule, forEach, REVIEW_INTERVALS, push. simpl.
  rewrite !addDays_eq, <- !app_assoc. reflexivity.
Qed.

(** Before the sort the array holds the modules' events, module by module
    in catalog order, each module's in review-number order. *)
Lemma generatedReviews_eq tza start modules :
  generatedReviews tza start modules =
  concat (imap (Spec.moduleEvents start) modules).
Proof.
  unfold generatedReviews, forEach.
  rewrite (forEachFrom_push _ (Spec.moduleEvents start)).
  - done.
  - intros. apply scheduleModule_eq.
Qed.

Lemma reviews_perm tza start modules :
  reviews (generateSchedule tza start modules) ≡ₚ
  concat (imap (Spec.moduleEvents start) modules).
Proof.
  simpl. rewrite <- (generatedReviews_eq tza).
  apply (sort_perm (fun r => getTime (date r))).
Qed.

Lemma moduleEvents_in_reviews tza start modules i m r :
  modules !! i = Some m ->
  r ∈ Spec.moduleEvents start i m ->
  r ∈ reviews (generateSchedule tza start modules).
Proof.
  intros Hm Hr. rewrite reviews_perm.
  apply list_elem_of_In, in_concat. exists (Spec.moduleEvents start i m).
  split; [|by apply list_elem_of_In].
  apply list_elem_of_In, list_elem_of_lookup. exists i.
  by rewrite list_lookup_imap, Hm.
Qed.

End GeneratorFacts.

Section GeneratorPositions.

Lemma concat_lookup_block {A : Type} (n : nat) (ls : list (list A)) i blk k r :
  Forall (fun b => length b = n) ls ->
  ls !! i = Some blk -> blk !! k = Some r ->
  concat ls !! (n * i + k)%nat = Some r.
Proof.
  intros Hall. revert i. induction Hall as [|b ls Hb Hall IH]; intros i Hi Hk.
  - done.
  - destruct i as [|i]; simpl in *.
    + simplify_eq. rewrite Nat.mul_0_r. simpl. by apply lookup_app_l_Some.
    + rewrite lookup_app_r by lia.
      replace (n * S i + k - length b)%nat with (n * i + k)%nat by lia.
      by apply IH.
Qed.

Lemma length_concat_blocks {A B : Type} (n : nat) (g : nat -> A -> list B) l :
  (forall j x, length (g j x) = n) ->
  length (concat (imap g l)) = (n * length l)%nat.
Proof.
  revert g. induction l as [|x l IH]; intros g Hg; simpl; [lia|].
  rewrite length_app, Hg, (IH (g ∘ S)) by (intros; apply Hg). lia.
Qed.

Lemma moduleEvents_length start i m : length (Spec.moduleEvents start i m) = 7%nat.
Proof. reflexivity. Qed.

Lemma generatedReviews_lookup tza start modules i m k r :
  modules !! i = Some m ->
  Spec.moduleEvents start i m !! k = Some r ->
  generatedReviews tza start modules !! (7 * i + k)%nat = Some r.
Proof.
  intros Hm Hk. rewrite generatedReviews_eq.
  apply concat_lookup_block with (blk := Spec.moduleEvents start i m); [| |done].
  - apply Forall_forall. intros b Hb.
    apply elem_of_lookup_imap in Hb as (j & x & -> & _). reflexivity.
  - by rewrite list_lookup_imap, Hm.
Qed.

End GeneratorPositions.



Section PerModule.

Lemma filter_all (A : Type) (p : A -> bool) (l : list A) :
  Forall (fun x => p x = true) l -> List.filter p l = l.
Proof.
  induction 1 as [|x l Hx _ IH]; simpl; [done|]. by rewrite Hx, IH.
Qed.

Lemma filter_none (A : Type) (p : A -> bool) (l : list A) :
  Forall (fun x => p x = false) l -> List.filter p l = [].
Proof.
  induction 1 as [|x l Hx _ IH]; simpl; [done|]. by rewrite Hx, IH.
Qed.

(** With distinct ids, the events carrying a module's id are the events
    generated for that module. *)
Lemma filter_blocks (g : nat -> LearningModule -> list ScheduledReview)
    (modules : list LearningModule) :
  (forall j x, Forall (fun r => moduleId r = id x) (g j x)) ->
  NoDup (List.map id modules) ->
  forall i m, modules !! i = Some m ->
    List.filter (hasId (id m)) (concat (imap g modules)) = g i m.
Proof.
  intros Hg. revert g Hg.
  induction modules as [|x modules IH]; intros g Hg Hnd i m Hm; [done|].
  simpl in *. apply NoDup_cons in Hnd as [Hx Hnd].
  rewrite List.filter_app.
  destruct i as [|i]; simpl in Hm.
  - simplify_eq. rewrite filter_all, filter_none, app_nil_r; [done| |].
    + apply Forall_forall. intros r Hr.
      apply list_elem_of_In, in_concat in Hr as (blk & Hblk & Hr).
      apply list_elem_of_In, elem_of_lookup_imap in Hblk as (j & y & -> & Hy).
      pose proof (Hg (S j) y) as Hall.
      rewrite Forall_forall in Hall.
      apply list_elem_of_In, Hall in Hr.
      unfold hasId. simpl. rewrite Hr. apply String.eqb_neq. intros Heq.
      apply Hx. rewrite <- Heq. apply list_elem_of_fmap_2'
        with (x := y); [|done]. by apply list_elem_of_lookup_2 in Hy.
    + eapply Forall_impl; [apply (Hg 0%nat m)|]. simpl. intros r Hr.
      unfold hasId. rewrite Hr. apply String.eqb_refl.
  - rewrite filter_none.
    + simpl. apply (IH (g ∘ S)); [|done|done]. intros j y. apply Hg.
    + eapply Forall_impl; [apply (Hg 0%nat x)|]. simpl. intros r Hr.
      unfold hasId. rewrite Hr. apply String.eqb_neq. intros Heq. apply Hx.
      rewrite Heq. apply list_elem_of_fmap_2' with (x := m); [|done].
      by apply list_elem_of_lookup_2 in Hm.
Qed.

Lemma moduleEvents_ids start i m :
  Forall (fun r => moduleId r = id m) (Spec.moduleEvents start i m).
Proof. repeat constructor. Qed.

Lemma moduleEvents_sorted start i m :
  StronglySorted (keyLe (fun r => getTime (date r))) (Spec.moduleEvents start i m).
Proof.
  unfold Spec.moduleEvents, keyLe, getTime, Spec.plusDays, msPerDay. simpl.
  repeat (constructor; [|repeat constructor; simpl; lia]). constructor.
Qed.

Lemma moduleEvents_wellFormed start i m :
  Forall Spec.wellFormed (Spec.moduleEvents start i m).
Proof. repeat constructor; simpl; lia. Qed.

Lemma moduleEvents_increasing start i m r1 r2 :
  r1 ∈ Spec.moduleEvents start i m -> r2 ∈ Spec.moduleEvents start i m ->
  reviewNumber r1 < reviewNumber r2 -> date r1 < date r2.
Proof.
  intros H1 H2. apply list_elem_of_In in H1, H2.
  unfold Spec.moduleEvents, Spec.plusDays, msPerDay in *. simpl in H1, H2.
  intuition subst; simpl in *; lia.
Qed.

End PerModule.

(** C2. For every start date and module sequence the schedule holds
    [7 * |modules|] reviews, every review has its reviewNumber in 0..6 and
    its isInitialLearning flag equal to (reviewNumber == 0), and each module
    has exactly seven of them, one initial and six repeats: the seven events
    generated for the module are in the schedule, they are numbered 0 to 6,
    their dates increase strictly with the review number and, the module ids
    being distinct, they are all the reviews that carry the module's id, in
    the order of their review numbers. *)
Theorem schedule_seven_per_module (tza : Z) (start : Date)
    (modules : list LearningModule) :
  let schedule := generateSchedule tza start modules in
  length (reviews schedule) = (7 * length modules)%nat
  /\ Forall (fun r => 0 <= reviewNumber r <= 6
                      /\ isInitialLearning r = (reviewNumber r =? 0))
            (reviews schedule)
  /\ forall (i : nat) (m : LearningModule),
       modules !! i = Some m ->
       let own := scheduleModule tza start m i [] in
       length own = 7%nat
       /\ List.map reviewNumber own = [0; 1; 2; 3; 4; 5; 6]
       /\ (forall r, r ∈ own -> r ∈ reviews schedule /\ moduleId r = id m)
       /\ (forall r1 r2, r1 ∈ own -> r2 ∈ own ->
             reviewNumber r1 < reviewNumber r2 ->
             getTime (date r1) < getTime (date r2))
       /\ (NoDup (List.map id modules) ->
             List.filter (hasId (id m)) (reviews schedule) = own).
Proof.
  intros schedule.
  assert (Hsort : reviews schedule =
                  sort (keyCmp (fun r => getTime (date r)))
                       (generatedReviews tza start modules)) by reflexivity.
  split; [|split].
  - subst schedule. rewrite reviews_perm.
    apply length_concat_blocks. intros j x. reflexivity.
  - change (Forall Spec.wellFormed (reviews schedule)).
    subst schedule. rewrite reviews_perm.
    apply Forall_concat, Forall_forall. intros blk Hblk.
    apply elem_of_lookup_imap in Hblk as (j & x & -> & _).
    apply moduleEvents_wellFormed.
  - intros i m Hm own.
    assert (Hown : own = Spec.moduleEvents start i m)
      by (subst own; by rewrite scheduleModule_eq).
    rewrite Hown.
    split; [reflexivity|]. split; [reflexivity|].
    split; [|split].
    + intros r Hr. split.
      * by apply (moduleEvents_in_reviews tza start modules i m).
      * pose proof (moduleEvents_ids start i m) as Hids.
        rewrite Forall_forall in Hids. by apply Hids.
    + intros r1 r2. apply moduleEvents_increasing.
    + intros Hnd. rewrite Hsort, filter_sort, generatedReviews_eq.
      rewrite (filter_blocks (Spec.moduleEvents start) modules
                 (moduleEvents_ids start) Hnd i m Hm).
      apply sort_sorted_id, moduleEvents_sorted.
Qed.

Lemma schedule_seven_per_module_witness :
  List.filter (hasId "ch3-api")
    (reviews (generateSchedule 0 0 getTutorialModules)) =
  scheduleModule 0 0 (Build_LearningModule "ch3-api" "API Server" 3
      ["HTTP server with Python"; "JSON API responses";
       "CORS headers for web access"]
      ["What is CORS and why is it needed for web APIs?";
       "How do you return JSON data from a Python HTTP handler?"]
      "#chapter-3-api") 2 [].
Proof.
  destruct (schedule_seven_per_module 0 0 getTutorialModules) as (_ & _ & H).
  destruct (H 2%nat (Build_LearningModule "ch3-api" "API Server" 3
      ["HTTP server with Python"; "JSON API responses";
       "CORS headers for web access"]
      ["What is CORS and why is it needed for web APIs?";
       "How do you return JSON data from a Python HTTP handler?"]
      "#chapter-3-api") eq_refl) as (_ & _ & _ & _ & Hf).
  apply Hf. apply (bool_decide_unpack _). vm_compute. exact I.
Defined.

(** C3. For every start date and module sequence the reviews of the
    schedule are in non-decreasing order of date, and the reviews that share
    a date come in the order in which they were generated, which is by
    module index first and by review number second. *)
Theorem schedule_sorted_stable (tza : Z) (start : Date)
    (modules : list LearningModule) :
  let schedule := generateSchedule tza start modules in
  StronglySorted (fun a b => getTime (date a) <= getTime (date b))
                 (reviews schedule)
  /\ (forall d : Z,
        List.filter (fun r => getTime (date r) =? d) (reviews schedule) =
        List.filter (fun r => getTime (date r) =? d)
                    (generatedReviews tza start modules))
  /\ generatedReviews tza start modules =
       concat (imap (fun i m => scheduleModule tza start m i []) modules)
  /\ (forall i m, List.map reviewNumber (scheduleModule tza start m i []) =
                  [0; 1; 2; 3; 4; 5; 6]).
Proof.
  intros schedule. split; [|split; [|split]].
  - apply (sort_sorted (fun r => getTime (date r))).
  - intros d. apply (sort_stable (fun r => getTime (date r))).
  - rewrite generatedReviews_eq. f_equal. apply imap_ext.
    intros i m _. by rewrite scheduleModule_eq.
  - reflexivity.
Qed.

(** ** Calendar grid *)

Section GridFacts.

Lemma WeekDay_range t : 0 <= WeekDay t <= 6.
Proof. unfold WeekDay. pose proof (Z.mod_pos_bound (Day t + 4) 7). lia. Qed.

Lemma firstDayOfGrid_eq tza d :
  setDate tza d (getDate tza d - getDay tza d) =
  d - getDay tza d * msPerDay.
Proof.
  replace (getDate tza d - getDay tza d)
    with (getDate tza d + - getDay tza d) by lia.
  rewrite setDate_getDate. lia.
Qed.

Lemma getDay_firstDayOfGrid tza d :
  getDay tza (d - getDay tza d * msPerDay) = 0.
Proof.
  unfold getDay at 1. unfold WeekDay.
  replace (LocalTime tza (d - getDay tza d * msPerDay))
    with (Spec.plusDays (LocalTime tza d) (- getDay tza d))
    by (unfold LocalTime, Spec.plusDays; lia).
  rewrite Day_plusDays. unfold getDay, WeekDay.
  generalize (Day (LocalTime tza d)). intros D.
  Z.div_mod_to_equations. lia.
Qed.

End GridFacts.



(** ** Empty inputs and lookups *)

Section LookupFacts.

Lemma newMap_snoc {V : Type} (entries : list (string * V)) k v :
  newMap (entries ++ [(k, v)]) = <[k := v]> (newMap entries).
Proof. unfold newMap. by rewrite foldl_app. Qed.

Lemma newMap_lookup_None {V : Type} (entries : list (string * V)) k :
  newMap entries !! k = None <-> k ∉ entries.*1.
Proof.
  induction entries as [|[k' v] entries IH] using rev_ind.
  - unfold newMap. simpl. rewrite lookup_empty. split; [|done].
    intros _. apply not_elem_of_nil.
  - rewrite newMap_snoc, fmap_app, lookup_insert_None, IH. simpl.
    rewrite not_elem_of_app, list_elem_of_singleton.
    split; intros [? ?]; split; congruence.
Qed.

Lemma newMap_lookup_Some {V : Type} (entries : list (string * V)) k v :
  newMap entries !! k = Some v -> (k, v) ∈ entries.
Proof.
  induction entries as [|[k' v'] entries IH] using rev_ind.
  - unfold newMap. simpl. by rewrite lookup_empty.
  - rewrite newMap_snoc, lookup_insert_Some, elem_of_app, list_elem_of_singleton.
    intros [[-> ->]|[_ H]]; [by right|left; by apply IH].
Qed.

Lemma moduleMap_lookup_None (modules : list LearningModule) k :
  newMap (List.map (fun m => (id m, m)) modules) !! k = None <->
  forall m, m ∈ modules -> id m <> k.
Proof.
  rewrite newMap_lookup_None.
  change (List.map ?f ?l) with (f <$> l). rewrite <- list_fmap_compose.
  rewrite list_elem_of_fmap. split.
  - intros Hn m Hm Heq. apply Hn. exists m. by split.
  - intros Hn (m & Hk & Hm). by apply (Hn m).
Qed.

Lemma moduleMap_lookup_Some (modules : list LearningModule) k m :
  newMap (List.map (fun m => (id m, m)) modules) !! k = Some m ->
  m ∈ modules /\ id m = k.
Proof.
  intros H. apply newMap_lookup_Some in H.
  change (List.map ?f ?l) with (f <$> l) in H.
  apply list_elem_of_fmap in H as (m' & Heq & Hm'). by simplify_eq.
Qed.

Lemma getModuleById_None schedule k :
  getModuleById schedule k = None <->
  forall m, m ∈ modules schedule -> id m <> k.
Proof.
  unfold getModuleById. split.
  - intros H m Hm Heq. apply list_elem_of_In in Hm.
    pose proof (find_none _ _ H m Hm) as Hf. simpl in Hf.
    apply String.eqb_neq in Hf. done.
  - intros H. destruct (find _ _) as [m|] eqn:Hf; [|done].
    apply find_some in Hf as [Hm Heq]. apply String.eqb_eq in Heq.
    apply list_elem_of_In in Hm. by destruct (H m Hm).
Qed.

Lemma getModuleById_Some schedule k m :
  getModuleById schedule k = Some m -> m ∈ modules schedule /\ id m = k.
Proof.
  unfold getModuleById. intros Hf.
  apply find_some in Hf as [Hm Heq]. apply String.eqb_eq in Heq.
  by apply list_elem_of_In in Hm.
Qed.

End LookupFacts.

Section SkipFacts.

Lemma hasModule_true modules r :
  hasModule modules r = true <-> exists m, m ∈ modules /\ id m = moduleId r.
Proof.
  unfold hasModule. rewrite existsb_exists. split.
  - intros (m & Hm & Heq). exists m. apply String.eqb_eq in Heq.
    by rewrite <- list_elem_of_In in Hm.
  - intros (m & Hm & Heq). exists m. rewrite String.eqb_eq.
    by rewrite list_elem_of_In in Hm.
Qed.

Lemma hasModule_false modules r :
  hasModule modules r = false <-> forall m, m ∈ modules -> id m <> moduleId r.
Proof.
  rewrite <- not_true_iff_false, hasModule_true. split.
  - intros Hn m Hm Heq. apply Hn. by exists m.
  - intros Hn (m & Hm & Heq). by apply (Hn m).
Qed.

Lemma icsEvents_cons tza r reviews modules :
  icsEvents tza (r :: reviews) modules =
  match newMap (List.map (fun m => (id m, m)) modules) !! moduleId r with
  | Some m => generateICSEvent tza r m :: icsEvents tza reviews modules
  | None => icsEvents tza reviews modules
  end.
Proof.
  unfold icsEvents. simpl.
  by destruct (newMap _ !! moduleId r).
Qed.

Lemma icsEvents_matching tza reviews modules :
  Forall2 (fun r event =>
             exists m, m ∈ modules /\ id m = moduleId r
                       /\ event = generateICSEvent tza r m)
          (List.filter (hasModule modules) reviews)
          (icsEvents tza reviews modules).
Proof.
  induction reviews as [|r reviews IH]; [constructor|].
  rewrite icsEvents_cons. simpl.
  destruct (newMap _ !! moduleId r) as [m|] eqn:Hl.
  - apply moduleMap_lookup_Some in Hl as [Hm Hid].
    assert (Hh : hasModule modules r = true)
      by (apply hasModule_true; by exists m).
    rewrite Hh. constructor; [|done]. by exists m.
  - pose proof (proj1 (moduleMap_lookup_None modules (moduleId r)) Hl) as Hn.
    assert (Hh : hasModule modules r = false) by by apply hasModule_false.
    by rewrite Hh.
Qed.

End SkipFacts.

(** C9. Empty inputs give defined empty results: the schedule generated for
    an empty module list has no reviews, the date range of a schedule
    without reviews has both bounds equal to its start date, and the reviews
    on a date that matches no review are the empty list. *)
Theorem empty_inputs_defined (tza : Z) :
  (forall s0 : Date,
      reviews (generateSchedule tza s0 []) = []
      /\ getScheduleDateRange (generateSchedule tza s0 []) =
           {| start := s0; end_ := s0 |})
  /\ (forall schedule : LearningSchedule,
        reviews schedule = [] ->
        getScheduleDateRange schedule =
          {| start := startDate schedule; end_ := startDate schedule |})
  /\ (forall (schedule : LearningSchedule) (d : Date),
        Forall (fun r => isSameDay tza (date r) d = false) (reviews schedule) ->
        getReviewsForDate tza schedule d = []).
Proof.
  split; [|split].
  - intros s0. split; reflexivity.
  - intros schedule Hr. unfold getScheduleDateRange. by rewrite Hr.
  - intros schedule d Hall. unfold getReviewsForDate.
    by apply filter_none.
Qed.

Lemma empty_inputs_defined_witness :
  getReviewsForDate 0 (generateSchedule 0 (newDateYMD 0 2026 0 1) getTutorialModules)
                    (newDateYMD 0 2027 5 1) = [].
Proof.
  destruct (empty_inputs_defined 0) as (_ & _ & H).
  apply H. apply (bool_decide_unpack _). vm_compute. exact I.
Defined.

(** C7. A module id that no module of the list carries is not an error:
    [getModuleById] answers [None] (undefined), and the file encoder leaves
    out every review whose module id has no module, so that its events are,
    in order, one block for each review that has one, encoded with a module
    of that id. *)
Theorem lookup_miss_skipped (tza : Z) :
  (forall (schedule : LearningSchedule) (moduleId_ : string),
      (forall m, m ∈ modules schedule -> id m <> moduleId_) ->
      getModuleById schedule moduleId_ = None)
  /\ (forall (reviews : list ScheduledReview) (modules : list LearningModule),
        let matching := List.filter (hasModule modules) reviews in
        length (icsEvents tza reviews modules) = length matching
        /\ Forall2 (fun r event =>
                      exists m, m ∈ modules /\ id m = moduleId r
                                /\ event = generateICSEvent tza r m)
                   matching (icsEvents tza reviews modules)
        /\ generateICSFile tza reviews modules =
             join CRLF (["BEGIN:VCALENDAR"; "VERSION:2.0";
                         "PRODID:-//TV Writer Explorer//Learning Schedule//EN";
                         "CALSCALE:GREGORIAN"; "METHOD:PUBLISH"]
                        ++ icsEvents tza reviews modules ++ ["END:VCALENDAR"]))
  /\ (forall (r : ScheduledReview) (reviews : list ScheduledReview)
             (modules : list LearningModule),
        (forall m, m ∈ modules -> id m <> moduleId r) ->
        icsEvents tza (r :: reviews) modules = icsEvents tza reviews modules).
Proof.
  split; [|split].
  - intros schedule k H. by apply getModuleById_None.
  - intros reviews modules matching.
    pose proof (icsEvents_matching tza reviews modules) as HF.
    split; [symmetry; by apply Forall2_length in HF|].
    split; [exact HF|reflexivity].
  - intros r reviews modules Hmiss. rewrite icsEvents_cons.
    by rewrite (proj2 (moduleMap_lookup_None modules (moduleId r)) Hmiss).
Qed.

Lemma lookup_miss_skipped_witness :
  getModuleById (generateSchedule 0 0 getTutorialModules) "ch7-missing" = None.
Proof.
  destruct (lookup_miss_skipped 0) as (H & _).
  apply H. apply Forall_forall.
  apply (bool_decide_unpack _). vm_compute. exact I.
Defined.



(** ** Text escaping *)

Section EscapeFacts.

Lemma append_cons x (a b : string) : String x a +:+ b = String x (a +:+ b).
Proof. reflexivity. Qed.

Lemma append_nil_l (b : string) : "" +:+ b = b.
Proof. reflexivity. Qed.

Lemma append_assoc (a b c : string) : (a +:+ b) +:+ c = a +:+ (b +:+ c).
Proof.
  induction a as [|x a IH]; [done|]. by rewrite !append_cons, IH.
Qed.

Lemma append_nil_r (a : string) : a +:+ "" = a.
Proof. induction a as [|x a IH]; [done|]. by rewrite append_cons, IH. Qed.

Lemma replaceAll_app class by_ a b :
  replaceAll class by_ (a +:+ b) =
  replaceAll class by_ a +:+ replaceAll class by_ b.
Proof.
  induction a as [|x a IH]; [done|].
  rewrite append_cons. cbn [replaceAll].
  destruct (class x); rewrite IH; [symmetry; apply append_assoc|done].
Qed.

(** The four replacements in sequence amount to one pass that quotes each
    character on its own. *)
Lemma escapeICSText_eq s : escapeICSText s = Spec.escapeText s.
Proof.
  unfold escapeICSText. induction s as [|c s IH]; [done|].
  cbn [replaceAll Spec.escapeText]. unfold Spec.escapeChar.
  rewrite (Ascii.eqb_sym c "\"), (Ascii.eqb_sym c ";"),
          (Ascii.eqb_sym c ","), (Ascii.eqb_sym c LF).
  destruct (Ascii.eqb_spec "\" c) as [<-|H1];
    [rewrite ?replaceAll_app, IH; reflexivity|].
  cbn [replaceAll].
  destruct (Ascii.eqb_spec ";" c) as [<-|H2];
    [rewrite ?replaceAll_app, IH; reflexivity|].
  cbn [replaceAll].
  destruct (Ascii.eqb_spec "," c) as [<-|H3];
    [rewrite ?replaceAll_app, IH; reflexivity|].
  cbn [replaceAll].
  destruct (Ascii.eqb_spec LF c) as [<-|H4];
    [rewrite ?replaceAll_app, IH; reflexivity|].
  by rewrite IH.
Qed.

Lemma escapeText_app a b :
  Spec.escapeText (a +:+ b) = Spec.escapeText a +:+ Spec.escapeText b.
Proof.
  induction a as [|x a IH]; [done|].
  rewrite append_cons. cbn [Spec.escapeText]. by rewrite IH, append_assoc.
Qed.

Lemma escapeICSText_app a b :
  escapeICSText (a +:+ b) = escapeICSText a +:+ escapeICSText b.
Proof. rewrite !escapeICSText_eq. apply escapeText_app. Qed.

Lemma escapeICSText_join lines :
  escapeICSText (join (String LF EmptyString) lines) =
  join "\n" (List.map escapeICSText lines).
Proof.
  unfold join. induction lines as [|x [|y lines] IH]; [done|done|].
  change (String.concat ?sep (x :: y :: lines))
    with (x +:+ sep +:+ String.concat sep (y :: lines)).
  rewrite !escapeICSText_app, IH. reflexivity.
Qed.

Lemma unescape_escape s : Spec.unescapeText (Spec.escapeText s) = s.
Proof.
  induction s as [|c s IH]; [done|].
  cbn [Spec.escapeText]. unfold Spec.escapeChar.
  destruct (Ascii.eqb_spec c "\") as [->|H1];
    [rewrite !append_cons, append_nil_l; simpl; by rewrite IH|].
  destruct (Ascii.eqb_spec c ";") as [->|H2];
    [rewrite !append_cons, append_nil_l; simpl; by rewrite IH|].
  destruct (Ascii.eqb_spec c ",") as [->|H3];
    [rewrite !append_cons, append_nil_l; simpl; by rewrite IH|].
  destruct (Ascii.eqb_spec c LF) as [->|H4];
    [rewrite !append_cons, append_nil_l; simpl; by rewrite IH|].
  rewrite append_cons, append_nil_l. simpl.
  apply Ascii.eqb_neq in H1. by rewrite H1, IH.
Qed.

Lemma escapeText_no_LF s : LF ∉ list_ascii_of_string (Spec.escapeText s).
Proof.
  induction s as [|c s IH]; [apply not_elem_of_nil|].
  cbn [Spec.escapeText]. unfold Spec.escapeChar.
  destruct (Ascii.eqb_spec c "\") as [->|H1];
    [rewrite !append_cons, append_nil_l; simpl;
     rewrite !not_elem_of_cons; by repeat split|].
  destruct (Ascii.eqb_spec c ";") as [->|H2];
    [rewrite !append_cons, append_nil_l; simpl;
     rewrite !not_elem_of_cons; by repeat split|].
  destruct (Ascii.eqb_spec c ",") as [->|H3];
    [rewrite !append_cons, append_nil_l; simpl;
     rewrite !not_elem_of_cons; by repeat split|].
  destruct (Ascii.eqb_spec c LF) as [->|H4];
    [rewrite !append_cons, append_nil_l; simpl;
     rewrite !not_elem_of_cons; by repeat split|].
  rewrite append_cons, append_nil_l. simpl.
  rewrite not_elem_of_cons. split; [congruence|done].
Qed.

Lemma concat_imap_singleton {A B : Type} (g : nat -> A -> B) l :
  concat (imap (fun j x => [g j x]) l) = imap g l.
Proof.
  revert g. induction l as [|x l IH]; intros g; simpl; [done|].
  f_equal. apply (IH (g ∘ S)).
Qed.

Lemma forEachFrom_snoc {A B : Type} (g : nat -> A -> B) arr s :
  forEachFrom (fun x i s => s ++ [g i x]) arr 0%nat s = s ++ imap g arr.
Proof.
  rewrite (forEachFrom_push _ (fun i x => [g i x])) by done.
  by rewrite concat_imap_singleton.
Qed.

(** The lines of the description: a heading, the concepts as a bulleted
    list, the questions (if there are any) as a numbered list, and the
    tutorial reference. *)
Lemma descriptionLines_eq review module :
  descriptionLines review module =
  [ if isInitialLearning review then
      "Learn Chapter " +:+ numberToString (chapter module)
        +:+ ": " +:+ title module
    else
      "Review " +:+ numberToString (reviewNumber review)
        +:+ " of 6 for Chapter " +:+ numberToString (chapter module) ]
  ++ [""; "Concepts to review:"]
  ++ List.map (fun concept => "• " +:+ concept) (concepts module)
  ++ (if (0 <? length (reviewQuestions module))%nat then
        [""; "Review questions:"]
        ++ imap (fun i question =>
                   numberToString (Z.of_nat i + 1) +:+ ". " +:+ question)
                (reviewQuestions module)
      else [])
  ++ [""; "Tutorial: tutorial.html" +:+ tutorialAnchor module].
Proof.
  unfold descriptionLines, forEach, push.
  rewrite (forEachFrom_snoc (fun (_ : nat) concept => "• " +:+ concept)).
  assert (Hmap : forall l : list string,
             imap (fun (_ : nat) concept => "• " +:+ concept) l
             = List.map (fun concept => "• " +:+ concept) l).
  { induction l as [|x l IH]; simpl; [done|]. f_equal. exact IH. }
  rewrite Hmap.
  destruct (0 <? length (reviewQuestions module))%nat.
  - rewrite (forEachFrom_snoc
               (fun i question =>
                  numberToString (Z.of_nat i + 1) +:+ ". " +:+ question)).
    destruct (isInitialLearning review); simpl; by rewrite <- !app_assoc.
  - destruct (isInitialLearning review); simpl; by rewrite <- !app_assoc.
Qed.

End EscapeFacts.



(** ** Compact timestamps *)

Section TimestampFacts.

Lemma DayWithinYear_range t :
  0 <= DayWithinYear t < 365 + InLeapYear t.
Proof.
  unfold DayWithinYear, InLeapYear, YearFromTime.
  pose proof (YearFromDay_spec (Day t)) as Hy.
  rewrite DayFromYear_succ in Hy.
  assert (Hd : DaysInYear (YearFromDay (Day t)) = 365
               \/ DaysInYear (YearFromDay (Day t)) = 366).
  { unfold DaysInYear.
    case_eqb; auto. }
  destruct Hd as [Hd|Hd]; rewrite Hd in *; simpl; lia.
Qed.

Lemma DateFromTime_range t : 1 <= DateFromTime t <= 31.
Proof.
  pose proof (DayWithinYear_range t) as Hr.
  unfold DateFromTime, MonthFromTime, monthOfYearDay.
  assert (Hl : InLeapYear t = 0 \/ InLeapYear t = 1)
    by (unfold InLeapYear; destruct (_ =? _); auto).
  case_ltb; simpl; lia.
Qed.

Lemma MakeTime_fields t :
  MakeTime (HourFromTime t) (MinFromTime t) (SecFromTime t) 0 =
  TimeWithinDay t - msFromTime t.
Proof.
  unfold MakeTime, HourFromTime, MinFromTime, SecFromTime, msFromTime,
    TimeWithinDay, msPerHour, msPerMinute, msPerSecond, msPerDay.
  Z.div_mod_to_equations. lia.
Qed.

(** The instant named by the UTC fields of [t] is [t], cut to the second. *)
Lemma instantOf_utcFields t :
  Spec.instantOf (Spec.utcFields t) = t - msFromTime t.
Proof.
  unfold Spec.instantOf, Spec.utcFields. simpl.
  replace (MonthFromTime t + 1 - 1) with (MonthFromTime t) by lia.
  rewrite MakeDay_fields, MakeTime_fields.
  unfold MakeDate, Day, TimeWithinDay.
  pose proof (Z.div_mod t msPerDay ltac:(done)). lia.
Qed.

Lemma digitChar_value d :
  0 <= d <= 9 ->
  Spec.digitValue (digitChar d) = Some d
  /\ isDashOrColon (digitChar d) = false
  /\ Ascii.eqb (digitChar d) "." = false.
Proof.
  intros Hd.
  assert (Hc : d = 0 \/ d = 1 \/ d = 2 \/ d = 3 \/ d = 4 \/ d = 5
               \/ d = 6 \/ d = 7 \/ d = 8 \/ d = 9) by lia.
  repeat (destruct Hc as [->|Hc]; [repeat split; reflexivity|]).
  subst. repeat split; reflexivity.
Qed.

Lemma digits_snoc k v s :
  digits (S k) v +:+ s = digits k (v / 10) +:+ String (digitChar (v mod 10)) s.
Proof. cbn [digits]. by rewrite append_assoc. Qed.

Lemma parseDigits_digits n m acc v s :
  Spec.parseDigits (n + m) acc (digits n v +:+ s) =
  Spec.parseDigits m (acc * 10 ^ Z.of_nat n + v mod 10 ^ Z.of_nat n) s.
Proof.
  revert m acc v s. induction n as [|k IH]; intros m acc v s.
  - simpl. f_equal. rewrite Z.mod_1_r. lia.
  - rewrite digits_snoc.
    replace (S k + m)%nat with (k + S m)%nat by lia.
    rewrite IH. cbn [Spec.parseDigits].
    destruct (digitChar_value (v mod 10)) as (Hv & _).
    { pose proof (Z.mod_pos_bound v 10). lia. }
    rewrite Hv. f_equal.
    rewrite Nat2Z.inj_succ, Z.pow_succ_r by lia.
    rewrite (Z.rem_mul_r v 10 (10 ^ Z.of_nat k)) by lia. lia.
Qed.

Lemma parseDigits_exact n v s :
  0 <= v < 10 ^ Z.of_nat n ->
  Spec.parseDigits n 0 (digits n v +:+ s) = Some (v, s).
Proof.
  intros Hv. replace n with (n + 0)%nat at 1 by lia.
  rewrite parseDigits_digits. simpl. f_equal. f_equal.
  rewrite Z.mod_small by done. lia.
Qed.

Lemma replaceAll_digits n v s :
  replaceAll isDashOrColon "" (digits n v +:+ s) =
  digits n v +:+ replaceAll isDashOrColon "" s.
Proof.
  revert v s. induction n as [|k IH]; intros v s; [done|].
  rewrite !digits_snoc, IH. cbn [replaceAll].
  destruct (digitChar_value (v mod 10)) as (_ & Hv & _).
  { pose proof (Z.mod_pos_bound v 10). lia. }
  by rewrite Hv.
Qed.

Lemma splitHead_digits n v s :
  splitHead "." (digits n v +:+ s) = digits n v +:+ splitHead "." s.
Proof.
  revert v s. induction n as [|k IH]; intros v s; [done|].
  rewrite !digits_snoc, IH. cbn [splitHead].
  destruct (digitChar_value (v mod 10)) as (_ & _ & Hv).
  { pose proof (Z.mod_pos_bound v 10). lia. }
  by rewrite Hv.
Qed.

(** The compact form of a time value whose year has four digits. *)
Lemma compactISO_eq t :
  0 <= YearFromTime t <= 9999 ->
  compactISO t =
  digits 4 (YearFromTime t) +:+ digits 2 (MonthFromTime t + 1)
    +:+ digits 2 (DateFromTime t) +:+ "T"
    +:+ digits 2 (HourFromTime t) +:+ digits 2 (MinFromTime t)
    +:+ digits 2 (SecFromTime t) +:+ "Z".
Proof.
  intros Hy. unfold compactISO, toISOString, isoYear.
  assert (Hb : (0 <=? YearFromTime t) && (YearFromTime t <=? 9999) = true)
    by (apply andb_true_intro; split; apply Z.leb_le; lia).
  rewrite Hb.
  rewrite replaceAll_digits.
  change (replaceAll isDashOrColon "" ("-" +:+ ?s))
    with (replaceAll isDashOrColon "" s).
  rewrite replaceAll_digits.
  change (replaceAll isDashOrColon "" ("-" +:+ ?s))
    with (replaceAll isDashOrColon "" s).
  rewrite replaceAll_digits.
  change (replaceAll isDashOrColon "" ("T" +:+ ?s))
    with (String "T" (replaceAll isDashOrColon "" s)).
  rewrite replaceAll_digits.
  change (replaceAll isDashOrColon "" (":" +:+ ?s))
    with (replaceAll isDashOrColon "" s).
  rewrite replaceAll_digits.
  change (replaceAll isDashOrColon "" (":" +:+ ?s))
    with (replaceAll isDashOrColon "" s).
  rewrite replaceAll_digits.
  change (replaceAll isDashOrColon "" ("." +:+ ?s))
    with (String "." (replaceAll isDashOrColon "" s)).
  rewrite !splitHead_digits.
  change (splitHead "." (String "T" ?s)) with (String "T" (splitHead "." s)).
  rewrite !splitHead_digits.
  change (splitHead "." (String "." ?s)) with EmptyString.
  rewrite !append_nil_r.
  change ("T" +:+ ?s) with (String "T" s).
  by rewrite !append_assoc.
Qed.

End TimestampFacts.

Section RoundTrip.

Lemma parseCompact_compactISO t :
  0 <= YearFromTime t <= 9999 ->
  Spec.parseCompact (compactISO t) = Some (Spec.utcFields t).
Proof.
  intros Hy. rewrite compactISO_eq by done.
  pose proof (MonthFromTime_range t) as Hm.
  pose proof (DateFromTime_range t) as Hd.
  pose proof (Z.mod_pos_bound (t / msPerHour) 24 ltac:(done)) as Hh.
  pose proof (Z.mod_pos_bound (t / msPerMinute) 60 ltac:(done)) as Hmi.
  pose proof (Z.mod_pos_bound (t / msPerSecond) 60 ltac:(done)) as Hs.
  fold (HourFromTime t) in Hh. fold (MinFromTime t) in Hmi.
  fold (SecFromTime t) in Hs.
  unfold Spec.parseCompact.
  rewrite (parseDigits_exact 4) by (change (10 ^ Z.of_nat 4) with 10000; lia).
  cbn [mbind option_bind].
  rewrite (parseDigits_exact 2) by (change (10 ^ Z.of_nat 2) with 100; lia).
  cbn [mbind option_bind].
  rewrite (parseDigits_exact 2) by (change (10 ^ Z.of_nat 2) with 100; lia).
  cbn [mbind option_bind].
  change ("T" +:+ ?s) with (String "T" s).
  cbn [Spec.expectChar]. rewrite Ascii.eqb_refl.
  cbn [mbind option_bind].
  rewrite (parseDigits_exact 2) by (change (10 ^ Z.of_nat 2) with 100; lia).
  cbn [mbind option_bind].
  rewrite (parseDigits_exact 2) by (change (10 ^ Z.of_nat 2) with 100; lia).
  cbn [mbind option_bind].
  rewrite (parseDigits_exact 2) by (change (10 ^ Z.of_nat 2) with 100; lia).
  reflexivity.
Qed.

Lemma setHours_local tza d h :
  LocalTime tza (setHours tza d h 0 0 0) =
  MakeDate (Day (LocalTime tza d)) (MakeTime h 0 0 0).
Proof. unfold setHours, UTC, LocalTime. lia. Qed.

(** On a host at offset zero, [h] o'clock of the day of [d]. *)
Lemma utcFields_setHours d h :
  0 <= h < 24 ->
  Spec.utcFields (setHours 0 d h 0 0 0) = Spec.utcAt d h.
Proof.
  intros Hh.
  assert (Ht : setHours 0 d h 0 0 0 = Day d * msPerDay + h * msPerHour)
    by (unfold setHours, UTC, LocalTime, MakeDate, MakeTime;
        rewrite Z.add_0_r; lia).
  assert (HD : Day (setHours 0 d h 0 0 0) = Day d).
  { rewrite Ht. unfold Day, msPerDay, msPerHour.
    Z.div_mod_to_equations. lia. }
  unfold Spec.utcFields, Spec.utcAt, DateFromTime, MonthFromTime,
    InLeapYear, DayWithinYear, YearFromTime. rewrite HD. f_equal.
  - rewrite Ht. unfold HourFromTime, Day, msPerDay, msPerHour.
    Z.div_mod_to_equations. lia.
  - rewrite Ht. unfold MinFromTime, Day, msPerDay, msPerHour, msPerMinute.
    Z.div_mod_to_equations. lia.
  - rewrite Ht. unfold SecFromTime, Day, msPerDay, msPerHour, msPerSecond.
    Z.div_mod_to_equations. lia.
Qed.

End RoundTrip.

(** C5, as the code has it. The DTSTART and DTEND timestamps are the UTC
    renderings of 09:00 and 10:00 wall-clock time of the host on the
    review's local calendar date: parsing them gives the UTC fields of those
    two instants (to the second), which on a host at offset zero are 09:00
    and 10:00 UTC on the original date. This holds for events whose UTC year
    has four digits. *)
Theorem timestamps_round_trip (tza : Z) (d : Date) :
  let begins := setHours tza d 9 0 0 0 in
  let ends := setHours tza d 10 0 0 0 in
  0 <= YearFromTime begins <= 9999 ->
  0 <= YearFromTime ends <= 9999 ->
  LocalTime tza begins = MakeDate (Day (LocalTime tza d)) (MakeTime 9 0 0 0)
  /\ LocalTime tza ends = MakeDate (Day (LocalTime tza d)) (MakeTime 10 0 0 0)
  /\ Spec.parseCompact (formatICSDate tza d) = Some (Spec.utcFields begins)
  /\ Spec.parseCompact (formatICSDateEnd tza d) = Some (Spec.utcFields ends)
  /\ Spec.instantOf (Spec.utcFields begins) = begins - msFromTime begins
  /\ Spec.instantOf (Spec.utcFields ends) = ends - msFromTime ends
  /\ (tza = 0 ->
      Spec.parseCompact (formatICSDate tza d) = Some (Spec.utcAt d 9)
      /\ Spec.parseCompact (formatICSDateEnd tza d) = Some (Spec.utcAt d 10)).
Proof.
  intros begins ends Hb He.
  split; [apply setHours_local|].
  split; [apply setHours_local|].
  assert (Hpb : Spec.parseCompact (formatICSDate tza d) = Some (Spec.utcFields begins))
    by (unfold formatICSDate; by apply parseCompact_compactISO).
  assert (Hpe : Spec.parseCompact (formatICSDateEnd tza d) = Some (Spec.utcFields ends))
    by (unfold formatICSDateEnd; by apply parseCompact_compactISO).
  split; [exact Hpb|]. split; [exact Hpe|].
  split; [apply instantOf_utcFields|].
  split; [apply instantOf_utcFields|].
  intros ->. rewrite Hpb, Hpe. subst begins ends.
  by rewrite !utcFields_setHours by lia.
Qed.

Lemma timestamps_round_trip_witness :
  Spec.parseCompact (formatICSDate 0 1767225600000) =
  Some {| Spec.year := 2026; Spec.month := 1; Spec.day := 1;
          Spec.hour := 9; Spec.minute := 0; Spec.second := 0 |}.
Proof.
  destruct (timestamps_round_trip 0 1767225600000) as (_ & _ & _ & _ & _ & _ & H).
  - vm_compute. split; discriminate.
  - vm_compute. split; discriminate.
  - destruct (H eq_refl) as [Hs _]. exact Hs.
Defined.

(** C5, as stated, fails on a host that is not at offset zero: five hours
    west of Greenwich, the event of local date 2026-01-01 starts at
    14:00 UTC, not at 09:00 UTC, and ends at 15:00 UTC. *)
Lemma timestamps_not_nine_utc :
  Spec.parseCompact (formatICSDate (-18000000) (newDateYMD (-18000000) 2026 0 1))
    = Some {| Spec.year := 2026; Spec.month := 1; Spec.day := 1;
              Spec.hour := 14; Spec.minute := 0; Spec.second := 0 |}
  /\ Spec.parseCompact (formatICSDateEnd (-18000000) (newDateYMD (-18000000) 2026 0 1))
    = Some {| Spec.year := 2026; Spec.month := 1; Spec.day := 1;
              Spec.hour := 15; Spec.minute := 0; Spec.second := 0 |}
  /\ ~ (forall (tza : Z) (d : Date),
          0 <= YearFromTime (setHours tza d 9 0 0 0) <= 9999 ->
          0 <= YearFromTime (setHours tza d 10 0 0 0) <= 9999 ->
          Spec.parseCompact (formatICSDate tza d) = Some (Spec.localAt tza d 9)
          /\ Spec.parseCompact (formatICSDateEnd tza d) = Some (Spec.localAt tza d 10))
  /\ ~ (forall (tza : Z) (d : Date),
          0 <= YearFromTime (setHours tza d 9 0 0 0) <= 9999 ->
          0 <= YearFromTime (setHours tza d 10 0 0 0) <= 9999 ->
          Spec.parseCompact (formatICSDate tza d) = Some (Spec.utcAt d 9)
          /\ Spec.parseCompact (formatICSDateEnd tza d) = Some (Spec.utcAt d 10)).
Proof.
  split; [vm_compute; reflexivity|].
  split; [vm_compute; reflexivity|].
  split.
  - intros H.
    destruct (H (-18000000) (newDateYMD (-18000000) 2026 0 1)) as [Hs _].
    + vm_compute. split; discriminate.
    + vm_compute. split; discriminate.
    + vm_compute in Hs. discriminate.
  - intros H.
    destruct (H (-18000000) (newDateYMD (-18000000) 2026 0 1)) as [Hs _].
    + vm_compute. split; discriminate.
    + vm_compute. split; discriminate.
    + vm_compute in Hs. discriminate.
Qed.

(** ** Objects and references: what each operation leaves in the store *)

Section HeapFacts.

Lemma returns_ret {A : Type} (a : A) σ Q :
  Q a σ -> Heap.returns (Heap.ret a) σ Q.
Proof. intros H. by exists a, σ. Qed.

Lemma returns_bind {A B : Type} (c : Heap.Comp A) (k : A -> Heap.Comp B) σ Q :
  Heap.returns c σ (fun a σ1 => Heap.returns (k a) σ1 Q) ->
  Heap.returns (Heap.bind c k) σ Q.
Proof.
  intros (a & σ1 & Hc & b & σ2 & Hk & HQ). exists b, σ2.
  unfold Heap.bind. by rewrite Hc.
Qed.

Lemma returns_mono {A : Type} (c : Heap.Comp A) σ (Q Q' : A -> Heap.store -> Prop) :
  Heap.returns c σ Q -> (forall a σ', Q a σ' -> Q' a σ') ->
  Heap.returns c σ Q'.
Proof. intros (a & σ' & Hc & HQ) Himp. exists a, σ'. auto. Qed.

Lemma returns_alloc o σ Q :
  (forall l, l ∉ dom σ -> Q l (<[l := o]> σ)) ->
  Heap.returns (Heap.alloc o) σ Q.
Proof.
  intros H. exists (fresh (dom σ)), (<[fresh (dom σ) := o]> σ).
  split; [done|]. apply H, is_fresh.
Qed.

Lemma returns_readDate l t σ Q :
  σ !! l = Some (Heap.ODate t) -> Q t σ ->
  Heap.returns (Heap.readDate l) σ Q.
Proof. intros Hl HQ. exists t, σ. unfold Heap.readDate. by rewrite Hl. Qed.

Lemma returns_writeDate l t0 t σ Q :
  σ !! l = Some (Heap.ODate t0) -> Q tt (<[l := Heap.ODate t]> σ) ->
  Heap.returns (Heap.writeDate l t) σ Q.
Proof.
  intros Hl HQ. exists tt, (<[l := Heap.ODate t]> σ).
  unfold Heap.writeDate. by rewrite Hl.
Qed.

Lemma returns_readModules l ms σ Q :
  σ !! l = Some (Heap.OModules ms) -> Q ms σ ->
  Heap.returns (Heap.readModules l) σ Q.
Proof. intros Hl HQ. exists ms, σ. unfold Heap.readModules. by rewrite Hl. Qed.

Lemma returns_readReviews l rs σ Q :
  σ !! l = Some (Heap.OReviews rs) -> Q rs σ ->
  Heap.returns (Heap.readReviews l) σ Q.
Proof. intros Hl HQ. exists rs, σ. unfold Heap.readReviews. by rewrite Hl. Qed.

Lemma returns_writeReviews l rs0 rs σ Q :
  σ !! l = Some (Heap.OReviews rs0) -> Q tt (<[l := Heap.OReviews rs]> σ) ->
  Heap.returns (Heap.writeReviews l rs) σ Q.
Proof.
  intros Hl HQ. exists tt, (<[l := Heap.OReviews rs]> σ).
  unfold Heap.writeReviews. by rewrite Hl.
Qed.

Lemma returns_pushReview l rs r σ Q :
  σ !! l = Some (Heap.OReviews rs) ->
  Q tt (<[l := Heap.OReviews (rs ++ [r])]> σ) ->
  Heap.returns (Heap.pushReview l r) σ Q.
Proof.
  intros Hl HQ. apply returns_bind.
  apply (returns_readReviews l rs); [done|].
  by apply (returns_writeReviews l rs).
Qed.

Lemma returns_pushDate l ds d σ Q :
  σ !! l = Some (Heap.ODates ds) ->
  Q tt (<[l := Heap.ODates (ds ++ [d])]> σ) ->
  Heap.returns (Heap.pushDate l d) σ Q.
Proof.
  intros Hl HQ. exists tt, (<[l := Heap.ODates (ds ++ [d])]> σ).
  unfold Heap.pushDate. by rewrite Hl.
Qed.

Lemma not_in_dom_lookup (σ : Heap.store) l o :
  σ !! l = Some o -> l ∈ dom σ.
Proof. intros H. apply elem_of_dom. by exists o. Qed.

(** [new Date(d)]: a fresh object with the time value of [d]. *)
Lemma returns_newDate d t σ Q :
  σ !! d = Some (Heap.ODate t) ->
  (forall r, r ∉ dom σ -> Q r (<[r := Heap.ODate t]> σ)) ->
  Heap.returns (Heap.newDate d) σ Q.
Proof.
  intros Hd HQ. apply returns_bind.
  apply (returns_readDate d t); [done|]. by apply returns_alloc.
Qed.

Lemma addDays_unfold tza t n :
  addDays tza t n = setDate tza t (getDate tza t + n).
Proof. unfold addDays. reflexivity. Qed.

(** [addDays] leaves the store as it was, plus one fresh [Date]. *)
Lemma returns_addDays tza d t n σ Q :
  σ !! d = Some (Heap.ODate t) ->
  (forall r, r ∉ dom σ ->
             Q r (<[r := Heap.ODate (addDays tza t n)]> σ)) ->
  Heap.returns (Heap.addDays tza d n) σ Q.
Proof.
  intros Hd HQ. unfold Heap.addDays. apply returns_bind.
  apply (returns_newDate d t); [done|]. intros r Hr.
  apply returns_bind.
  apply (returns_readDate r t); [by rewrite lookup_insert_eq|].
  apply returns_bind.
  apply (returns_writeDate r t); [by rewrite lookup_insert_eq|].
  apply returns_ret. rewrite insert_insert_eq.
  rewrite <- addDays_unfold. by apply HQ.
Qed.

End HeapFacts.

Section GeneratorInStore.

Lemma framed_refl rl σ : Heap.framed rl σ σ.
Proof. by intros l o _ H. Qed.

Lemma framed_trans rl σ1 σ2 σ3 :
  Heap.framed rl σ1 σ2 -> Heap.framed rl σ2 σ3 -> Heap.framed rl σ1 σ3.
Proof. intros H12 H23 l o Hl H. by apply H23, H12. Qed.

Lemma framed_insert_fresh rl (σ : Heap.store) r o :
  r ∉ dom σ -> Heap.framed rl σ (<[r := o]> σ).
Proof.
  intros Hr l o' _ Hl. rewrite lookup_insert_ne; [done|].
  intros ->. apply Hr. by apply not_in_dom_lookup in Hl.
Qed.

Lemma represents_framed rl σ σ' rs r v :
  Heap.framed rl σ σ' -> σ !! rl = Some (Heap.OReviews rs) ->
  Heap.represents σ r v -> Heap.represents σ' r v.
Proof.
  intros Hfr Hrl (Hid & Hd & Hn & Hf). repeat split; try done.
  apply Hfr; [|done]. intros Heq. rewrite Heq, Hrl in Hd. done.
Qed.

(** Pushing a review whose date has just been allocated. *)
Lemma generating_push σ0 rl (σ : Heap.store) vs r mid t rn fl :
  Heap.generating σ0 rl σ vs -> r ∉ dom σ ->
  Heap.returns
    (Heap.pushReview rl {| Heap.moduleId := mid; Heap.date := r;
                           Heap.reviewNumber := rn;
                           Heap.isInitialLearning := fl |})
    (<[r := Heap.ODate t]> σ)
    (fun _ σ' =>
       Heap.generating σ0 rl σ'
         (vs ++ [{| moduleId := mid; date := t; reviewNumber := rn;
                    isInitialLearning := fl |}])
       /\ Heap.framed rl σ σ'
       /\ σ' !! r = Some (Heap.ODate t)).
Proof.
  intros (Hsub & Hrl & rs & Hrs & HF2 & Hfresh) Hr.
  assert (Hne : r <> rl).
  { intros ->. apply Hr. by apply not_in_dom_lookup in Hrs. }
  assert (Hfr1 : Heap.framed rl σ (<[r := Heap.ODate t]> σ))
    by by apply framed_insert_fresh.
  apply (returns_pushReview rl rs); [by rewrite lookup_insert_ne|].
  set (σ' := <[rl := _]> _).
  assert (Hfr : Heap.framed rl σ σ').
  { intros l o Hl Hlo. subst σ'. rewrite lookup_insert_ne by done.
    by apply Hfr1. }
  split; [|split; [done|]].
  2: { subst σ'. rewrite lookup_insert_ne by done. apply lookup_insert_eq. }
  split; [|split; [done|]].
  - apply map_subseteq_spec. intros l o Hl. apply Hfr.
    + intros ->. apply Hrl. by apply not_in_dom_lookup in Hl.
    + by apply (lookup_weaken σ0).
  - eexists. split; [subst σ'; apply lookup_insert_eq|]. split.
    + apply Forall2_app.
      * eapply Forall2_impl; [exact HF2|]. intros r0 v0.
        by apply (represents_framed rl σ σ' rs).
      * constructor; [|constructor]. repeat split; simpl.
        subst σ'. rewrite lookup_insert_ne by done. apply lookup_insert_eq.
    + apply Forall_app. split; [done|]. constructor; [|constructor]. simpl.
      intros Hin. apply Hr. revert Hin. apply subseteq_dom in Hsub.
      apply Hsub.
Qed.

End GeneratorInStore.

Section GeneratorLoops.

Lemma generating_lookup_ne σ0 rl (σ : Heap.store) vs l t :
  Heap.generating σ0 rl σ vs -> σ !! l = Some (Heap.ODate t) -> l <> rl.
Proof.
  intros (_ & _ & rs & Hrs & _) Hl ->. rewrite Hrs in Hl. done.
Qed.

(** The inner loop over the intervals. *)
Lemma returns_intervalLoop tza σ0 rl mid ld tl intervals :
  forall i (σ : Heap.store) vs,
    Heap.generating σ0 rl σ vs ->
    σ !! ld = Some (Heap.ODate tl) ->
    Heap.returns
      (Heap.forEachFrom
         (fun interval reviewIndex =>
            Heap.bind (Heap.addDays tza ld interval)
              (fun d =>
                 Heap.pushReview rl
                   {| Heap.moduleId := mid; Heap.date := d;
                      Heap.reviewNumber := Z.of_nat reviewIndex + 1;
                      Heap.isInitialLearning := false |}))
         intervals i)
      σ
      (fun _ σ' =>
         Heap.generating σ0 rl σ'
           (forEachFrom
              (fun interval reviewIndex reviews =>
                 push reviews
                   {| moduleId := mid; date := addDays tza tl interval;
                      reviewNumber := Z.of_nat reviewIndex + 1;
                      isInitialLearning := false |})
              intervals i vs)).
Proof.
  induction intervals as [|interval intervals IH]; intros i σ vs Hgen Hld.
  - by apply returns_ret.
  - cbn [Heap.forEachFrom forEachFrom].
    apply returns_bind, returns_bind.
    apply (returns_addDays tza ld tl); [done|]. intros r Hr.
    eapply returns_mono; [by apply generating_push|].
    intros _ σ' (Hgen' & Hfr & _). simpl.
    apply IH; [exact Hgen'|].
    apply Hfr; [|done]. by apply (generating_lookup_ne σ0 rl σ vs ld tl).
Qed.

(** The outer loop over the modules. *)
Lemma returns_moduleLoop tza σ0 rl sd t0 elems :
  σ0 !! sd = Some (Heap.ODate t0) ->
  forall i (σ : Heap.store) vs,
    Heap.generating σ0 rl σ vs ->
    Heap.returns
      (Heap.forEachFrom (Heap.scheduleModule tza sd rl) elems i) σ
      (fun _ σ' =>
         Heap.generating σ0 rl σ'
           (forEachFrom (scheduleModule tza t0) elems i vs)).
Proof.
  intros Hsd.
  induction elems as [|m elems IH]; intros i σ vs Hgen.
  - by apply returns_ret.
  - cbn [Heap.forEachFrom forEachFrom].
    apply returns_bind. unfold Heap.scheduleModule at 1.
    apply returns_bind.
    assert (Hsd' : σ !! sd = Some (Heap.ODate t0)).
    { destruct Hgen as (Hsub & _). by apply (lookup_weaken σ0). }
    apply (returns_addDays tza sd t0); [done|]. intros r Hr.
    apply returns_bind.
    eapply returns_mono; [by apply generating_push|].
    intros _ σ1 (Hgen1 & _ & Hr1). simpl.
    eapply returns_mono.
    { unfold Heap.forEach.
      by apply (returns_intervalLoop tza σ0 rl (id m) r
                  (addDays tza t0 (Z.of_nat i)) REVIEW_INTERVALS 0%nat σ1). }
    intros ? σ2 Hgen2. simpl in Hgen2. by apply IH.
Qed.

Lemma Forall2_insertSorted {A B : Type} (R : A -> B -> Prop)
    (cmp1 : A -> A -> Z) (cmp2 : B -> B -> Z) :
  (forall a b a' b', R a a' -> R b b' -> cmp1 a b = cmp2 a' b') ->
  forall x y l1 l2,
    R x y -> Forall2 R l1 l2 ->
    Forall2 R (insertSorted cmp1 x l1) (insertSorted cmp2 y l2).
Proof.
  intros Hcmp x y l1 l2 Hxy HF.
  induction HF as [|a b l1 l2 Hab HF IH]; simpl.
  - by repeat constructor.
  - rewrite (Hcmp x a y b) by done.
    destruct (cmp2 y b <=? 0); repeat (constructor; try done).
Qed.

Lemma Forall2_sort {A B : Type} (R : A -> B -> Prop)
    (cmp1 : A -> A -> Z) (cmp2 : B -> B -> Z) :
  (forall a b a' b', R a a' -> R b b' -> cmp1 a b = cmp2 a' b') ->
  forall l1 l2,
    Forall2 R l1 l2 -> Forall2 R (sort cmp1 l1) (sort cmp2 l2).
Proof.
  intros Hcmp l1 l2 HF. induction HF as [|a b l1 l2 Hab HF IH].
  - constructor.
  - by apply Forall2_insertSorted.
Qed.

Lemma represents_timeAt σ r v :
  Heap.represents σ r v -> Heap.timeAt σ (Heap.date r) = date v.
Proof. intros (_ & Hd & _). unfold Heap.timeAt. by rewrite Hd. Qed.

Lemma returns_sortReviews σ0 rl (σ : Heap.store) vs :
  Heap.generating σ0 rl σ vs ->
  Heap.returns (Heap.sortReviews rl) σ
    (fun _ σ' => Heap.generating σ0 rl σ' (sort byDate vs)).
Proof.
  intros (Hsub & Hrl & rs & Hrs & HF2 & Hfresh).
  set (cmp := fun a b : Heap.ReviewRef =>
                Heap.timeAt σ (Heap.date a) - Heap.timeAt σ (Heap.date b)).
  exists tt, (<[rl := Heap.OReviews (sort cmp rs)]> σ). split.
  { unfold Heap.sortReviews, Heap.bind, Heap.readReviews, Heap.writeReviews.
    by rewrite Hrs, Hrs. }
  assert (Hfr : Heap.framed rl σ (<[rl := Heap.OReviews (sort cmp rs)]> σ)).
  { intros l o Hl Hlo. by rewrite lookup_insert_ne. }
  split; [|split; [done|]].
  - apply map_subseteq_spec. intros l o Hl. apply Hfr.
    + intros ->. apply Hrl. by apply not_in_dom_lookup in Hl.
    + by apply (lookup_weaken σ0).
  - exists (sort cmp rs). split; [apply lookup_insert_eq|]. split.
    + eapply Forall2_impl.
      * apply (Forall2_sort (Heap.represents σ) cmp byDate); [|exact HF2].
        intros a b a' b' Ha Hb. subst cmp. simpl. unfold byDate, getTime.
        by rewrite (represents_timeAt σ a a'), (represents_timeAt σ b b').
      * intros r v. by apply (represents_framed rl σ _ rs).
    + change cmp with (keyCmp (fun a => Heap.timeAt σ (Heap.date a))).
      by rewrite sort_perm.
Qed.

(** [generateSchedule] on the store: the caller's objects are left as they
    were, the reviews array and every review date are new, the reviews
    stand for those of the schedule computed on the values, and the
    schedule's [startDate] and [modules] are the caller's own objects. *)
Lemma returns_generateSchedule tza (σ : Heap.store) sd ml t0 ms :
  σ !! sd = Some (Heap.ODate t0) ->
  σ !! ml = Some (Heap.OModules ms) ->
  Heap.returns (Heap.generateSchedule tza sd ml) σ
    (fun schedule σ' =>
       (σ ⊆ σ')
       /\ (Heap.reviews schedule ∉ dom σ)
       /\ (exists rs,
             σ' !! Heap.reviews schedule = Some (Heap.OReviews rs)
             /\ Forall (fun r => Heap.date r ∉ dom σ) rs
             /\ Forall2 (Heap.represents σ') rs
                        (reviews (generateSchedule tza t0 ms)))
       /\ Heap.startDate schedule = sd
       /\ Heap.modules schedule = ml).
Proof.
  intros Hsd Hml. unfold Heap.generateSchedule.
  apply returns_bind, returns_alloc. intros rl Hrl.
  assert (Hgen : Heap.generating σ rl (<[rl := Heap.OReviews []]> σ) []).
  { split; [by apply insert_subseteq, not_elem_of_dom|]. split; [done|].
    exists []. split; [apply lookup_insert_eq|]. split; constructor. }
  apply returns_bind.
  apply (returns_readModules ml ms).
  { rewrite lookup_insert_ne; [done|]. intros ->. apply Hrl.
    by apply not_in_dom_lookup in Hml. }
  apply returns_bind.
  eapply returns_mono.
  { unfold Heap.forEach.
    by apply (returns_moduleLoop tza σ rl sd t0 ms Hsd 0%nat _ []). }
  intros ? σ1 Hgen1. simpl in Hgen1.
  apply returns_bind.
  eapply returns_mono; [by apply returns_sortReviews|].
  intros _ σ2 (Hsub & _ & rs & Hrs & HF2 & Hfresh). simpl.
  apply returns_ret. simpl.
  split; [done|]. split; [done|]. split; [|done].
  exists rs. by repeat split.
Qed.

End GeneratorLoops.

Section OtherOperationsInStore.

Lemma returns_addDays_fresh tza (σ : Heap.store) d t n :
  σ !! d = Some (Heap.ODate t) ->
  Heap.returns (Heap.addDays tza d n) σ
    (fun r σ' => (σ ⊆ σ') /\ (r ∉ dom σ)
                 /\ σ' !! r = Some (Heap.ODate (addDays tza t n))).
Proof.
  intros Hd. apply (returns_addDays tza d t); [done|]. intros r Hr.
  split; [by apply insert_subseteq, not_elem_of_dom|].
  split; [done|apply lookup_insert_eq].
Qed.

Lemma returns_formatICSDate tza (σ : Heap.store) d t :
  σ !! d = Some (Heap.ODate t) ->
  Heap.returns (Heap.formatICSDate tza d) σ
    (fun text σ' => (σ ⊆ σ') /\ text = formatICSDate tza t).
Proof.
  intros Hd. unfold Heap.formatICSDate. apply returns_bind.
  apply (returns_newDate d t); [done|]. intros r Hr.
  apply returns_bind.
  apply (returns_readDate r t); [apply lookup_insert_eq|].
  apply returns_bind.
  apply (returns_writeDate r t); [apply lookup_insert_eq|].
  rewrite insert_insert_eq. apply returns_bind.
  eapply returns_readDate; [apply lookup_insert_eq|].
  apply returns_ret. split; [|reflexivity].
  by apply insert_subseteq, not_elem_of_dom.
Qed.

Lemma returns_formatICSDateEnd tza (σ : Heap.store) d t :
  σ !! d = Some (Heap.ODate t) ->
  Heap.returns (Heap.formatICSDateEnd tza d) σ
    (fun text σ' => (σ ⊆ σ') /\ text = formatICSDateEnd tza t).
Proof.
  intros Hd. unfold Heap.formatICSDateEnd. apply returns_bind.
  apply (returns_newDate d t); [done|]. intros r Hr.
  apply returns_bind.
  apply (returns_readDate r t); [apply lookup_insert_eq|].
  apply returns_bind.
  apply (returns_writeDate r t); [apply lookup_insert_eq|].
  rewrite insert_insert_eq. apply returns_bind.
  eapply returns_readDate; [apply lookup_insert_eq|].
  apply returns_ret. split; [|reflexivity].
  by apply insert_subseteq, not_elem_of_dom.
Qed.

Lemma represents_times σ rs vs :
  Forall2 (Heap.represents σ) rs vs ->
  List.map (fun r => Heap.timeAt σ (Heap.date r)) rs =
  List.map (fun r => getTime (date r)) vs.
Proof.
  induction 1 as [|r v rs vs Hrv _ IH]; simpl; [done|].
  by rewrite (represents_timeAt σ r v), IH.
Qed.

(** The date range: the schedule's own start date object for a schedule
    without reviews, two new [Date] objects otherwise. *)
Lemma returns_getScheduleDateRange (σ : Heap.store) schedule rs vs t0 ms :
  σ !! Heap.reviews schedule = Some (Heap.OReviews rs) ->
  Forall2 (Heap.represents σ) rs vs ->
  σ !! Heap.startDate schedule = Some (Heap.ODate t0) ->
  Heap.returns (Heap.getScheduleDateRange schedule) σ
    (fun range σ' =>
       let value := getScheduleDateRange
                      {| startDate := t0; modules := ms; reviews := vs |} in
       (σ ⊆ σ')
       /\ σ' !! Heap.start range = Some (Heap.ODate (start value))
       /\ σ' !! Heap.end_ range = Some (Heap.ODate (end_ value))
       /\ (vs = [] ->
           σ' = σ /\ Heap.start range = Heap.startDate schedule
           /\ Heap.end_ range = Heap.startDate schedule)
       /\ (vs <> [] ->
           (Heap.start range ∉ dom σ) /\ (Heap.end_ range ∉ dom σ)
           /\ Heap.start range <> Heap.end_ range)).
Proof.
  intros Hrs HF2 Hsd. unfold Heap.getScheduleDateRange.
  apply returns_bind. apply (returns_readReviews _ rs); [done|].
  unfold Heap.returns, getScheduleDateRange. simpl.
  rewrite (represents_times σ rs vs HF2).
  destruct vs as [|v vs]; simpl.
  - exists {| Heap.start := Heap.startDate schedule;
              Heap.end_ := Heap.startDate schedule |}, σ.
    split; [done|]. simpl. repeat split; done.
  - set (tmin := mathMin _ _). set (tmax := mathMax _ _).
    set (l1 := fresh (dom σ)).
    set (σ1 := <[l1 := Heap.ODate tmin]> σ).
    set (l2 := fresh (dom σ1)).
    exists {| Heap.start := l1; Heap.end_ := l2 |},
           (<[l2 := Heap.ODate tmax]> σ1).
    split; [done|]. simpl.
    assert (H1 : l1 ∉ dom σ) by apply is_fresh.
    assert (H2 : l2 ∉ dom σ1) by apply is_fresh.
    assert (Hne : l1 <> l2).
    { intros Heq. apply H2. rewrite <- Heq. subst σ1.
      rewrite dom_insert. set_solver. }
    split; [|split; [|split; [|split]]].
    + etrans; [apply insert_subseteq, not_elem_of_dom, H1|].
      apply insert_subseteq, not_elem_of_dom, H2.
    + rewrite lookup_insert_ne by done. subst σ1. apply lookup_insert_eq.
    + apply lookup_insert_eq.
    + done.
    + intros _. split; [done|]. split; [|done].
      intros Hin. apply H2. subst σ1. rewrite dom_insert. set_solver.
Qed.

Lemma collecting_push σ0 dl (σ : Heap.store) vs r t :
  Heap.collecting σ0 dl σ vs -> r ∉ dom σ ->
  Heap.returns (Heap.pushDate dl r) (<[r := Heap.ODate t]> σ)
    (fun _ σ' => Heap.collecting σ0 dl σ' (vs ++ [t])
                 /\ Heap.framed dl σ σ').
Proof.
  intros (Hsub & Hdl & ds & Hds & HF2 & Hfresh) Hr.
  assert (Hne : r <> dl).
  { intros ->. apply Hr. by apply not_in_dom_lookup in Hds. }
  apply (returns_pushDate dl ds); [by rewrite lookup_insert_ne|].
  set (σ' := <[dl := _]> _).
  assert (Hfr : Heap.framed dl σ σ').
  { intros l o Hl Hlo. subst σ'. rewrite lookup_insert_ne by done.
    by apply (framed_insert_fresh dl). }
  split; [|done].
  split; [|split; [done|]].
  - apply map_subseteq_spec. intros l o Hl. apply Hfr.
    + intros ->. apply Hdl. by apply not_in_dom_lookup in Hl.
    + by apply (lookup_weaken σ0).
  - eexists. split; [subst σ'; apply lookup_insert_eq|]. split.
    + apply Forall2_app.
      * eapply Forall2_impl; [exact HF2|]. intros l v Hl. simpl in *.
        apply Hfr; [|done]. intros ->. rewrite Hds in Hl. done.
      * constructor; [|constructor].
        subst σ'. rewrite lookup_insert_ne by done. apply lookup_insert_eq.
    + apply Forall_app. split; [done|]. constructor; [|constructor].
      intros Hin. apply Hr. revert Hin. apply subseteq_dom in Hsub.
      apply Hsub.
Qed.

Lemma returns_gridLoop tza σ0 dl fl tf indices :
  forall j (σ : Heap.store) vs,
    Heap.collecting σ0 dl σ vs ->
    σ !! fl = Some (Heap.ODate tf) ->
    Heap.returns
      (Heap.forEachFrom
         (fun i (_ : nat) =>
            Heap.bind (Heap.addDays tza fl (Z.of_nat i))
                      (fun d => Heap.pushDate dl d))
         indices j)
      σ
      (fun _ σ' =>
         Heap.collecting σ0 dl σ'
           (vs ++ List.map (fun i => addDays tza tf (Z.of_nat i)) indices)).
Proof.
  induction indices as [|i indices IH]; intros j σ vs Hcol Hfl.
  - apply returns_ret. simpl. by rewrite app_nil_r.
  - cbn [Heap.forEachFrom List.map].
    apply returns_bind, returns_bind.
    apply (returns_addDays tza fl tf); [done|]. intros r Hr.
    eapply returns_mono; [by apply collecting_push|].
    intros ? σ' (Hcol' & Hfr). simpl.
    replace (vs ++ addDays tza tf (Z.of_nat i)
                :: List.map (fun i => addDays tza tf (Z.of_nat i)) indices)
      with ((vs ++ [addDays tza tf (Z.of_nat i)])
              ++ List.map (fun i => addDays tza tf (Z.of_nat i)) indices)
      by (by rewrite <- app_assoc).
    apply IH; [done|]. apply Hfr; [|done].
    intros ->. destruct Hcol as (_ & _ & ds & Hds & _).
    rewrite Hds in Hfl. done.
Qed.

Lemma returns_generateCalendarDays tza (σ : Heap.store) d t :
  σ !! d = Some (Heap.ODate t) ->
  Heap.returns (Heap.generateCalendarDays tza d) σ
    (fun days σ' =>
       (σ ⊆ σ') /\ (days ∉ dom σ)
       /\ exists ds, σ' !! days = Some (Heap.ODates ds)
                     /\ Forall (fun l => l ∉ dom σ) ds
                     /\ Forall2 (fun l v => σ' !! l = Some (Heap.ODate v))
                                ds (generateCalendarDays tza t)).
Proof.
  intros Hd. unfold Heap.generateCalendarDays.
  apply returns_bind, returns_alloc. intros dl Hdl.
  assert (Hne : d <> dl).
  { intros ->. apply Hdl. by apply not_in_dom_lookup in Hd. }
  apply returns_bind.
  apply (returns_newDate d t); [by rewrite lookup_insert_ne|].
  intros fl Hfl. apply returns_bind.
  apply (returns_readDate fl t); [apply lookup_insert_eq|].
  apply returns_bind.
  apply (returns_writeDate fl t); [apply lookup_insert_eq|].
  rewrite insert_insert_eq.
  set (tf := setDate tza t (getDate tza t - getDay tza t)).
  set (σ1 := <[fl := Heap.ODate tf]> (<[dl := Heap.ODates []]> σ)).
  assert (Hfl' : fl <> dl).
  { intros ->. apply Hfl. rewrite dom_insert. set_solver. }
  assert (Hcol : Heap.collecting σ dl σ1 []).
  { split; [|split; [done|]].
    - subst σ1. etrans; [apply insert_subseteq, not_elem_of_dom, Hdl|].
      apply insert_subseteq, not_elem_of_dom, Hfl.
    - exists []. split; [|split; constructor].
      subst σ1. rewrite lookup_insert_ne by done. apply lookup_insert_eq. }
  apply returns_bind.
  eapply returns_mono.
  { unfold Heap.forEach.
    apply (returns_gridLoop tza σ dl fl tf (seq 0 42) 0%nat σ1 []);
      [done|]. subst σ1. apply lookup_insert_eq. }
  intros ? σ2 (Hsub & _ & ds & Hds & HF2 & Hfresh). simpl in *.
  apply returns_ret. split; [done|]. split; [done|].
  exists ds. repeat split; done.
Qed.

End OtherOperationsInStore.




(** * Further properties of the code *)

(** ** Calendar days *)

Section SameDay.

Lemma Day_fields t :
  Day t = MakeDay (YearFromTime t) (MonthFromTime t) (DateFromTime t).
Proof. rewrite MakeDay_fields. lia. Qed.

Lemma fields_of_Day t1 t2 :
  Day t1 = Day t2 ->
  YearFromTime t1 = YearFromTime t2
  /\ MonthFromTime t1 = MonthFromTime t2
  /\ DateFromTime t1 = DateFromTime t2.
Proof.
  intros HD.
  assert (Hy : YearFromTime t1 = YearFromTime t2)
    by (unfold YearFromTime; by rewrite HD).
  assert (Hl : InLeapYear t1 = InLeapYear t2)
    by (unfold InLeapYear; by rewrite Hy).
  assert (Hw : DayWithinYear t1 = DayWithinYear t2)
    by (unfold DayWithinYear; by rewrite Hy, HD).
  assert (Hm : MonthFromTime t1 = MonthFromTime t2)
    by (unfold MonthFromTime; by rewrite Hl, Hw).
  split; [done|]. split; [done|].
  unfold DateFromTime. by rewrite Hl, Hw, Hm.
Qed.

Lemma isSameDay_Day tza d1 d2 :
  isSameDay tza d1 d2 = true <->
  Day (LocalTime tza d1) = Day (LocalTime tza d2).
Proof.
  unfold isSameDay, getFullYear, getMonth, getDate. split.
  - intros H. apply andb_prop in H as [H Hd]. apply andb_prop in H as [Hy Hm].
    apply Z.eqb_eq in Hy, Hm, Hd.
    rewrite (Day_fields (LocalTime tza d1)), (Day_fields (LocalTime tza d2)).
    by rewrite Hy, Hm, Hd.
  - intros HD. apply fields_of_Day in HD as (Hy & Hm & Hd).
    rewrite Hy, Hm, Hd, !Z.eqb_refl. reflexivity.
Qed.

Lemma Day_local_addDays tza d n :
  Day (LocalTime tza (addDays tza d n)) = Day (LocalTime tza d) + n.
Proof. by rewrite addDays_eq, LocalTime_plusDays, Day_plusDays. Qed.

End SameDay.

(** X1. Two dates are the same day for [isSameDay] exactly when their
    local times fall on the same day number: the test ignores the time of
    day and nothing else. It is therefore reflexive, symmetric and
    transitive, and a date moved by [addDays] is on the same day as the
    original only when it is moved by zero days. *)
Theorem same_day_iff_same_local_day (tza : Z) :
  (forall d1 d2 : Date,
      isSameDay tza d1 d2 = true <->
      Day (LocalTime tza d1) = Day (LocalTime tza d2))
  /\ (forall d, isSameDay tza d d = true)
  /\ (forall d1 d2, isSameDay tza d1 d2 = isSameDay tza d2 d1)
  /\ (forall d1 d2 d3,
        isSameDay tza d1 d2 = true -> isSameDay tza d2 d3 = true ->
        isSameDay tza d1 d3 = true)
  /\ (forall d n, isSameDay tza (addDays tza d n) d = true <-> n = 0).
Proof.
  split; [apply isSameDay_Day|].
  split; [intros d; by apply isSameDay_Day|].
  split.
  { intros d1 d2. destruct (isSameDay tza d2 d1) eqn:H21.
    - apply isSameDay_Day. symmetry. by apply isSameDay_Day.
    - destruct (isSameDay tza d1 d2) eqn:H12; [|done].
      apply isSameDay_Day in H12. symmetry in H12.
      apply isSameDay_Day in H12. congruence. }
  split.
  { intros d1 d2 d3 H12 H23. apply isSameDay_Day.
    apply isSameDay_Day in H12, H23. congruence. }
  intros d n. rewrite isSameDay_Day, Day_local_addDays. lia.
Qed.

Lemma same_day_iff_same_local_day_witness :
  isSameDay 0 (newDateYMD 0 2026 0 1 + 3600000) (newDateYMD 0 2026 0 1 + 7200000)
  = true.
Proof.
  destruct (same_day_iff_same_local_day 0) as (_ & _ & _ & H & _).
  apply (H _ (newDateYMD 0 2026 0 1)); vm_compute; reflexivity.
Defined.

(** ** Looking a date up in a schedule *)

Section ReviewsForDate.

Lemma filter_sublist {A : Type} (p : A -> bool) (l : list A) :
  List.filter p l `sublist_of` l.
Proof.
  induction l as [|x l IH]; simpl; [constructor|].
  destruct (p x); by constructor.
Qed.

Lemma filter_elem_of {A : Type} (p : A -> bool) (l : list A) x :
  x ∈ List.filter p l <-> x ∈ l /\ p x = true.
Proof. rewrite !list_elem_of_In. apply filter_In. Qed.

Lemma filter_length_perm {A : Type} (p : A -> bool) (l l' : list A) :
  l ≡ₚ l' -> length (List.filter p l) = length (List.filter p l').
Proof.
  induction 1 as [|x l l' _ IH|x y l|l1 l2 l3 _ IH1 _ IH2]; simpl.
  - done.
  - destruct (p x); simpl; by rewrite IH.
  - destruct (p x), (p y); reflexivity.
  - by rewrite IH1.
Qed.

Lemma filter_filter {A : Type} (p q : A -> bool) (l : list A) :
  List.filter p (List.filter q l) = List.filter (fun x => q x && p x) l.
Proof.
  induction l as [|x l IH]; simpl; [done|].
  destruct (q x); simpl; [destruct (p x)|]; by rewrite IH.
Qed.

End ReviewsForDate.

(** X2. [getReviewsForDate] returns, in schedule order, exactly the reviews
    whose date is on the same local day as the date asked for, whatever the
    times of day. On a generated schedule, asking for the learning date of
    the module at index [i] returns that module's initial-learning event,
    and asking for the date of any generated review returns that review. *)
Theorem reviews_for_date_are_the_days_reviews (tza : Z) :
  (forall (schedule : LearningSchedule) (d : Date),
      getReviewsForDate tza schedule d `sublist_of` reviews schedule
      /\ forall r, r ∈ getReviewsForDate tza schedule d <->
                   r ∈ reviews schedule
                   /\ Day (LocalTime tza (date r)) = Day (LocalTime tza d))
  /\ (forall (start : Date) (modules : list LearningModule) (i : nat) m,
        modules !! i = Some m ->
        {| moduleId := id m; date := addDays tza start (Z.of_nat i);
           reviewNumber := 0; isInitialLearning := true |}
          ∈ getReviewsForDate tza (generateSchedule tza start modules)
                              (addDays tza start (Z.of_nat i)))
  /\ (forall (start : Date) (modules : list LearningModule) r,
        r ∈ reviews (generateSchedule tza start modules) ->
        r ∈ getReviewsForDate tza (generateSchedule tza start modules) (date r)).
Proof.
  assert (Hchar : forall schedule d r,
             r ∈ getReviewsForDate tza schedule d <->
             r ∈ reviews schedule
             /\ Day (LocalTime tza (date r)) = Day (LocalTime tza d)).
  { intros schedule d r. unfold getReviewsForDate.
    rewrite filter_elem_of. by rewrite isSameDay_Day. }
  split; [|split].
  - intros schedule d. split; [apply filter_sublist|apply Hchar].
  - intros start modules i m Hm. apply Hchar. split; [|done].
    apply (moduleEvents_in_reviews tza start modules i m _ Hm).
    rewrite addDays_eq. apply list_elem_of_here.
  - intros start modules r Hr. by apply Hchar.
Qed.

Lemma reviews_for_date_are_the_days_reviews_witness :
  {| moduleId := "ch2-database"; date := addDays 0 0 (Z.of_nat 1);
     reviewNumber := 0; isInitialLearning := true |}
    ∈ getReviewsForDate 0 (generateSchedule 0 0 getTutorialModules)
                        (addDays 0 0 (Z.of_nat 1)).
Proof.
  destruct (reviews_for_date_are_the_days_reviews 0) as (_ & H & _).
  apply (H 0 getTutorialModules 1%nat
           (Build_LearningModule "ch2-database" "Database" 2
              ["SQLite database"; "Creating tables with SQL";
               "Junction tables for many-to-many relationships";
               "SQL queries and joins"]
              ["What is a junction table and when do you need one?";
               "How do you query data that spans multiple tables?";
               "What are the benefits of using a database over JSON files?"]
              "#chapter-2-database")).
  reflexivity.
Defined.

Section OnePerDay.

Lemma moduleEvents_initial_count tza start d i m :
  length (List.filter
            (fun r => isSameDay tza (date r) d && isInitialLearning r)
            (Spec.moduleEvents start i m)) =
  if Z.of_nat i =? Day (LocalTime tza d) - Day (LocalTime tza start)
  then 1%nat else 0%nat.
Proof.
  unfold Spec.moduleEvents. cbn [List.filter date isInitialLearning].
  rewrite andb_true_r.
  rewrite (filter_none _ _ (imap _ Spec.ladder)).
  2: { apply Forall_forall. intros r Hr.
       apply elem_of_lookup_imap in Hr as (k & iv & -> & _).
       cbn [isInitialLearning]. apply andb_false_r. }
  assert (HD : Day (LocalTime tza (Spec.learningDate start i)) =
               Day (LocalTime tza start) + Z.of_nat i).
  { unfold Spec.learningDate. by rewrite LocalTime_plusDays, Day_plusDays. }
  destruct (isSameDay tza (Spec.learningDate start i) d) eqn:Hs; cbn [length].
  - apply isSameDay_Day in Hs. rewrite HD in Hs.
    destruct (Z.eqb_spec (Z.of_nat i)
                (Day (LocalTime tza d) - Day (LocalTime tza start)));
      [done|lia].
  - destruct (Z.eqb_spec (Z.of_nat i)
                (Day (LocalTime tza d) - Day (LocalTime tza start)));
      [|done].
    assert (Hs' : isSameDay tza (Spec.learningDate start i) d = true)
      by (apply isSameDay_Day; lia).
    congruence.
Qed.

Lemma blocks_count {A B : Type} (q : B -> bool) (g : nat -> A -> list B)
    (K : Z) :
  (forall i x, length (List.filter q (g i x)) =
               if Z.of_nat i =? K then 1%nat else 0%nat) ->
  forall (l : list A) (j : nat),
    length (List.filter q (concat (imap (fun i => g (j + i)%nat) l))) =
    if (Z.of_nat j <=? K) && (K <? Z.of_nat j + Z.of_nat (length l))
    then 1%nat else 0%nat.
Proof.
  intros Hg. induction l as [|x l IH]; intros j.
  - cbn [imap concat List.filter length].
    destruct (Z.leb_spec (Z.of_nat j) K),
             (Z.ltb_spec K (Z.of_nat j + Z.of_nat 0));
      cbn [andb]; first [reflexivity | lia].
  - cbn [imap concat]. rewrite List.filter_app, length_app, Hg.
    rewrite (imap_ext _ (fun i => g (S j + i)%nat))
      by (intros; simpl; f_equal; lia).
    rewrite IH. cbn [length]. rewrite Nat.add_0_r.
    destruct (Z.eqb_spec (Z.of_nat j) K),
             (Z.leb_spec (Z.of_nat (S j)) K),
             (Z.ltb_spec K (Z.of_nat (S j) + Z.of_nat (length l))),
             (Z.leb_spec (Z.of_nat j) K),
             (Z.ltb_spec K (Z.of_nat j + Z.of_nat (S (length l))));
      cbn [andb]; lia.
Qed.

End OnePerDay.

(** X3. One chapter a day: among the reviews a generated schedule has on a
    date, exactly one is an initial-learning event when the date is one of
    the first [|modules|] local days from the start date, and none is
    otherwise. No two modules are first learned on the same day. *)
Theorem one_initial_learning_per_day (tza : Z) (start : Date)
    (modules : list LearningModule) (d : Date) :
  let offset := Day (LocalTime tza d) - Day (LocalTime tza start) in
  length (List.filter isInitialLearning
            (getReviewsForDate tza (generateSchedule tza start modules) d)) =
  if (0 <=? offset) && (offset <? Z.of_nat (length modules))
  then 1%nat else 0%nat.
Proof.
  intros offset. unfold getReviewsForDate. rewrite filter_filter.
  rewrite (filter_length_perm _ _ _ (reviews_perm tza start modules)).
  pose proof (blocks_count
                (fun r => isSameDay tza (date r) d && isInitialLearning r)
                (Spec.moduleEvents start) offset
                (fun i m => moduleEvents_initial_count tza start d i m)
                modules 0%nat) as H.
  exact H.
Qed.

(** ** The date range of a schedule *)

Section DateRange.

Lemma mathMin_le_init x xs : mathMin x xs <= x.
Proof.
  unfold mathMin. revert x. induction xs as [|a xs IH]; intros x; simpl.
  - lia.
  - etrans; [apply IH|]. lia.
Qed.

Lemma mathMin_le x xs y : y ∈ x :: xs -> mathMin x xs <= y.
Proof.
  intros Hy. apply elem_of_cons in Hy as [->|Hy]; [apply mathMin_le_init|].
  unfold mathMin. revert x. induction xs as [|a xs IH]; intros x; simpl.
  - by apply not_elem_of_nil in Hy.
  - apply elem_of_cons in Hy as [->|Hy].
    + etrans; [apply (mathMin_le_init (Z.min x a) xs)|]. lia.
    + by apply IH.
Qed.

Lemma mathMin_in x xs : mathMin x xs ∈ x :: xs.
Proof.
  unfold mathMin. revert x. induction xs as [|a xs IH]; intros x; simpl.
  - apply list_elem_of_here.
  - specialize (IH (Z.min x a)).
    apply elem_of_cons in IH as [Heq|Hin].
    + rewrite Heq. destruct (Z.min_spec x a) as [[_ ->]|[_ ->]].
      * apply list_elem_of_here.
      * apply list_elem_of_further, list_elem_of_here.
    + by do 2 apply list_elem_of_further.
Qed.

Lemma mathMax_ge_init x xs : x <= mathMax x xs.
Proof.
  unfold mathMax. revert x. induction xs as [|a xs IH]; intros x; simpl.
  - lia.
  - etrans; [|apply IH]. lia.
Qed.

Lemma mathMax_ge x xs y : y ∈ x :: xs -> y <= mathMax x xs.
Proof.
  intros Hy. apply elem_of_cons in Hy as [->|Hy]; [apply mathMax_ge_init|].
  unfold mathMax. revert x. induction xs as [|a xs IH]; intros x; simpl.
  - by apply not_elem_of_nil in Hy.
  - apply elem_of_cons in Hy as [->|Hy].
    + etrans; [|apply (mathMax_ge_init (Z.max x a) xs)]. lia.
    + by apply IH.
Qed.

Lemma mathMax_in x xs : mathMax x xs ∈ x :: xs.
Proof.
  unfold mathMax. revert x. induction xs as [|a xs IH]; intros x; simpl.
  - apply list_elem_of_here.
  - specialize (IH (Z.max x a)).
    apply elem_of_cons in IH as [Heq|Hin].
    + rewrite Heq. destruct (Z.max_spec x a) as [[_ ->]|[_ ->]].
      * apply list_elem_of_further, list_elem_of_here.
      * apply list_elem_of_here.
    + by do 2 apply list_elem_of_further.
Qed.

Lemma dateRange_bounds schedule :
  reviews schedule <> [] ->
  (forall r, r ∈ reviews schedule ->
             start (getScheduleDateRange schedule) <= getTime (date r)
             <= end_ (getScheduleDateRange schedule))
  /\ (exists r, r ∈ reviews schedule
                /\ getTime (date r) = start (getScheduleDateRange schedule))
  /\ (exists r, r ∈ reviews schedule
                /\ getTime (date r) = end_ (getScheduleDateRange schedule)).
Proof.
  intros Hne. unfold getScheduleDateRange.
  destruct (reviews schedule) as [|r0 rs] eqn:Hrs; [done|].
  change (List.map ?f (r0 :: rs)) with (f r0 :: List.map f rs).
  cbn [start end_].
  set (t := getTime (date r0)). set (ts := List.map _ rs).
  assert (Hin : forall r, r ∈ r0 :: rs -> getTime (date r) ∈ t :: ts).
  { intros r Hr. change (t :: ts)
      with ((fun r => getTime (date r)) <$> (r0 :: rs)).
    by apply (list_elem_of_fmap_2 (fun r => getTime (date r))). }
  assert (Hback : forall v, v ∈ t :: ts ->
                            exists r, r ∈ r0 :: rs /\ getTime (date r) = v).
  { intros v Hv. change (t :: ts)
      with ((fun r => getTime (date r)) <$> (r0 :: rs)) in Hv.
    apply list_elem_of_fmap in Hv as (r & -> & Hr). by exists r. }
  split; [|split].
  - intros r Hr. split; [apply mathMin_le|apply mathMax_ge]; by apply Hin.
  - apply Hback, mathMin_in.
  - apply Hback, mathMax_in.
Qed.

(** Every date of a generated schedule is between the start date and the
    last module's last review. *)
Lemma generated_date_bounds tza start modules r :
  r ∈ reviews (generateSchedule tza start modules) ->
  start <= date r <= start + (Z.of_nat (length modules) + 59) * msPerDay.
Proof.
  rewrite reviews_perm. intros Hr.
  apply list_elem_of_In, in_concat in Hr as (blk & Hblk & Hr).
  apply list_elem_of_In, elem_of_lookup_imap in Hblk as (i & m & -> & Hm).
  apply lookup_lt_Some in Hm.
  unfold Spec.moduleEvents, Spec.learningDate, Spec.plusDays, msPerDay in *.
  simpl in Hr. intuition subst; simpl; lia.
Qed.

Lemma insertSorted_least {A : Type} (key : A -> Z) x l :
  (forall y, y ∈ l -> key x <= key y) ->
  insertSorted (keyCmp key) x l = x :: l.
Proof.
  intros Hmin. destruct l as [|y l]; [done|]. simpl.
  specialize (Hmin y (list_elem_of_here _ _)). unfold keyCmp.
  destruct (Z.leb_spec (key x - key y) 0); [done|lia].
Qed.

End DateRange.

(** X4. For a schedule that has reviews, [getScheduleDateRange] returns the
    earliest and the latest review date: every review date lies between the
    two bounds, and each bound is the date of some review. *)
Theorem date_range_is_min_and_max (schedule : LearningSchedule) :
  reviews schedule <> [] ->
  let range := getScheduleDateRange schedule in
  (forall r, r ∈ reviews schedule ->
             start range <= getTime (date r) <= end_ range)
  /\ (exists r, r ∈ reviews schedule /\ getTime (date r) = start range)
  /\ (exists r, r ∈ reviews schedule /\ getTime (date r) = end_ range)
  /\ start range <= end_ range.
Proof.
  intros Hne range.
  destruct (dateRange_bounds schedule Hne) as (Hb & Hmin & Hmax).
  split; [done|]. split; [done|]. split; [done|].
  destruct Hmin as (r & Hr & _). specialize (Hb r Hr). subst range. lia.
Qed.

Lemma date_range_is_min_and_max_witness :
  start (getScheduleDateRange (generateSchedule 0 0 getTutorialModules))
  <= end_ (getScheduleDateRange (generateSchedule 0 0 getTutorialModules)).
Proof.
  destruct (date_range_is_min_and_max (generateSchedule 0 0 getTutorialModules))
    as (_ & _ & _ & H).
  - vm_compute. discriminate.
  - exact H.
Defined.



(** X6. The first review of a schedule generated for a non-empty module
    list is the first module's initial-learning event, on the start date
    itself. *)
Theorem first_review_is_first_module (tza : Z) (start : Date)
    (m0 : LearningModule) (modules : list LearningModule) :
  head (reviews (generateSchedule tza start (m0 :: modules))) =
  Some {| moduleId := id m0; date := start;
          reviewNumber := 0; isInitialLearning := true |}.
Proof.
  assert (Hd : Spec.learningDate start 0 = start)
    by (unfold Spec.learningDate, Spec.plusDays; simpl; lia).
  change (reviews (generateSchedule tza start (m0 :: modules)))
    with (sort (keyCmp (fun r => getTime (date r)))
               (generatedReviews tza start (m0 :: modules))).
  pose proof (generated_date_bounds tza start (m0 :: modules)) as Hb.
  change (reviews (generateSchedule tza start (m0 :: modules)))
    with (sort (keyCmp (fun r => getTime (date r)))
               (generatedReviews tza start (m0 :: modules))) in Hb.
  rewrite generatedReviews_eq in *. cbn [imap concat] in *.
  unfold Spec.moduleEvents at 1. unfold Spec.moduleEvents at 1 in Hb.
  rewrite <- app_comm_cons, Hd in *.
  set (x := {| moduleId := id m0; date := start; reviewNumber := 0;
               isInitialLearning := true |}) in *.
  set (rest := _ ++ _) in *.
  change (sort ?c (x :: rest)) with (insertSorted c x (sort c rest)) in *.
  rewrite insertSorted_least; [done|].
  intros y Hy. destruct (Hb y) as [Hlo _]; [|exact Hlo].
  rewrite insertSorted_perm. by apply list_elem_of_further.
Qed.

(** ** Module lookups *)

Section ModuleLookups.

Lemma generated_review_module tza start modules r :
  r ∈ reviews (generateSchedule tza start modules) ->
  exists m, m ∈ modules /\ id m = moduleId r.
Proof.
  rewrite reviews_perm. intros Hr.
  apply list_elem_of_In, in_concat in Hr as (blk & Hblk & Hr).
  apply list_elem_of_In, elem_of_lookup_imap in Hblk as (i & m & -> & Hm).
  exists m. split; [by apply list_elem_of_lookup_2 in Hm|].
  pose proof (moduleEvents_ids start i m) as Hids.
  rewrite Forall_forall in Hids. symmetry. apply Hids.
  by apply list_elem_of_In.
Qed.

Lemma find_app {A : Type} (p : A -> bool) (l1 l2 : list A) :
  find p (l1 ++ l2) =
  match find p l1 with Some x => Some x | None => find p l2 end.
Proof.
  induction l1 as [|x l1 IH]; simpl; [done|]. by destruct (p x).
Qed.

(** The map built from the modules keeps, for each id, the last module that
    carries it. *)
Lemma moduleMap_lookup_last (modules : list LearningModule) k :
  newMap (List.map (fun m => (id m, m)) modules) !! k =
  find (fun m => String.eqb (id m) k) (rev modules).
Proof.
  induction modules as [|m modules IH] using rev_ind; [done|].
  rewrite map_app, rev_app_distr. simpl.
  rewrite newMap_snoc, lookup_insert. simpl.
  destruct (String.eqb_spec (id m) k) as [->|Hne].
  - by rewrite decide_True.
  - by rewrite decide_False.
Qed.

Lemma find_rev_unique (modules : list LearningModule) k :
  NoDup (List.map id modules) ->
  find (fun m => String.eqb (id m) k) (rev modules) =
  find (fun m => String.eqb (id m) k) modules.
Proof.
  induction modules as [|m modules IH]; intros Hnd; [done|].
  simpl in *. apply NoDup_cons in Hnd as [Hm Hnd].
  rewrite find_app, IH by done. simpl.
  destruct (String.eqb_spec (id m) k) as [Heq|Hne].
  - destruct (find _ modules) as [m'|] eqn:Hf; [|done].
    apply find_some in Hf as [Hin Hid]. apply String.eqb_eq in Hid.
    exfalso. apply Hm. rewrite Heq, <- Hid.
    apply (list_elem_of_fmap_2 id), list_elem_of_In, Hin.
  - by destruct (find _ modules).
Qed.

End ModuleLookups.

(** X7. A generated schedule has no dangling module id: [getModuleById]
    finds a module of the right id for every review of the schedule, and
    the file encoder, given the schedule's reviews and modules, leaves no
    review out: it produces [7 * |modules|] event blocks. *)
Theorem generated_schedule_ids_resolve (tza : Z) (start : Date)
    (modules : list LearningModule) :
  let schedule := generateSchedule tza start modules in
  (forall r, r ∈ reviews schedule ->
             exists m, getModuleById schedule (moduleId r) = Some m
                       /\ id m = moduleId r)
  /\ List.filter (hasModule (SpacedRepetition.modules schedule))
                 (reviews schedule) = reviews schedule
  /\ length (icsEvents tza (reviews schedule)
                       (SpacedRepetition.modules schedule))
     = (7 * length modules)%nat.
Proof.
  intros schedule.
  assert (Hall : Forall (fun r => hasModule modules r = true) (reviews schedule)).
  { apply Forall_forall. intros r Hr. apply hasModule_true.
    by apply (generated_review_module tza start). }
  split; [|split].
  - intros r Hr.
    destruct (getModuleById schedule (moduleId r)) as [m|] eqn:Hf.
    + exists m. split; [done|]. by apply getModuleById_Some in Hf as [_ ?].
    + destruct (generated_review_module tza start modules r Hr) as (m & Hm & Hid).
      exfalso. by apply (proj1 (getModuleById_None schedule (moduleId r)) Hf m).
  - by apply filter_all.
  - change (SpacedRepetition.modules schedule) with modules.
    pose proof (icsEvents_matching tza (reviews schedule) modules) as HF.
    apply Forall2_length in HF. rewrite <- HF.
    rewrite filter_all by done.
    subst schedule. rewrite reviews_perm.
    apply length_concat_blocks. reflexivity.
Qed.

Lemma generated_schedule_ids_resolve_witness :
  exists m,
    getModuleById (generateSchedule 0 0 getTutorialModules) "ch1-scraper"
      = Some m
    /\ id m = "ch1-scraper"%string.
Proof.
  destruct (generated_schedule_ids_resolve 0 0 getTutorialModules) as [H _].
  apply (H {| moduleId := "ch1-scraper"; date := 0;
              reviewNumber := 0; isInitialLearning := true |}).
  eapply (moduleEvents_in_reviews 0 0 getTutorialModules 0%nat);
    [reflexivity|apply list_elem_of_here].
Defined.

(** X8. Where two modules carry the same id the two lookups differ:
    [getModuleById] answers with the first of them, the map of the file
    encoder with the last. With distinct ids they agree. *)
Theorem map_lookup_is_last_find_is_first (modules : list LearningModule)
    (k : string) :
  let moduleMap := newMap (List.map (fun m => (id m, m)) modules) in
  let schedule := {| startDate := 0; modules := modules; reviews := [] |} in
  moduleMap !! k = find (fun m => String.eqb (id m) k) (rev modules)
  /\ getModuleById schedule k = find (fun m => String.eqb (id m) k) modules
  /\ (NoDup (List.map id modules) -> moduleMap !! k = getModuleById schedule k).
Proof.
  intros moduleMap schedule.
  split; [apply moduleMap_lookup_last|]. split; [reflexivity|].
  intros Hnd. subst moduleMap. rewrite moduleMap_lookup_last.
  by apply find_rev_unique.
Qed.

Lemma map_lookup_is_last_find_is_first_witness :
  newMap (List.map (fun m => (id m, m)) getTutorialModules) !! "ch3-api" =
  getModuleById {| startDate := 0; modules := getTutorialModules;
                   reviews := [] |} "ch3-api".
Proof.
  destruct (map_lookup_is_last_find_is_first getTutorialModules "ch3-api")
    as (_ & _ & H).
  apply H. apply (bool_decide_unpack _). vm_compute. exact I.
Defined.

(** ** The calendar-service link *)

Section LinkFacts.

Import Reading.

Lemma allChars_app p a b :
  allChars p (a +:+ b) = allChars p a && allChars p b.
Proof.
  induction a as [|c a IH]; [done|].
  rewrite append_cons. cbn [allChars]. by rewrite IH, andb_assoc.
Qed.

Lemma allChars_impl (p q : ascii -> bool) s :
  (forall c, p c = true -> q c = true) ->
  allChars p s = true -> allChars q s = true.
Proof.
  intros Hpq. induction s as [|c s IH]; [done|]. cbn [allChars].
  intros H. apply andb_prop in H as [Hc Hs].
  by rewrite (Hpq c Hc), IH.
Qed.

Lemma formDecode_encodeChar c rest :
  formDecode (formEncodeChar c +:+ rest) = String c (formDecode rest).
Proof.
  destruct c as [[] [] [] [] [] [] [] []]; reflexivity.
Qed.

Lemma formDecode_formEncode s : formDecode (formEncode s) = s.
Proof.
  induction s as [|c s IH]; [done|].
  cbn [formEncode]. by rewrite formDecode_encodeChar, IH.
Qed.

Lemma formEncodeChar_chars c : allChars isEncoded (formEncodeChar c) = true.
Proof.
  destruct c as [[] [] [] [] [] [] [] []]; reflexivity.
Qed.

Lemma formEncode_chars s : allChars isEncoded (formEncode s) = true.
Proof.
  induction s as [|c s IH]; [done|].
  cbn [formEncode]. by rewrite allChars_app, formEncodeChar_chars, IH.
Qed.

Lemma isEncoded_isNot sep c :
  isEncoded sep = false -> isEncoded c = true -> isNot sep c = true.
Proof.
  intros Hsep Hc. unfold isNot.
  destruct (Ascii.eqb_spec c sep) as [->|_]; [congruence|done].
Qed.

Lemma isEncoded_isQueryChar c : isEncoded c = true -> isQueryChar c = true.
Proof.
  unfold isEncoded, isQueryChar. intros ->. reflexivity.
Qed.

Lemma splitOn_app sep a b :
  allChars (isNot sep) a = true ->
  splitOn sep (a +:+ String sep b) = a :: splitOn sep b.
Proof.
  induction a as [|c a IH]; intros Ha.
  - rewrite append_nil_l. cbn [splitOn]. by rewrite Ascii.eqb_refl.
  - cbn [allChars] in Ha. apply andb_prop in Ha as [Hc Ha].
    rewrite append_cons. cbn [splitOn]. rewrite IH by done.
    unfold isNot in Hc. apply negb_true_iff in Hc. by rewrite Hc.
Qed.

Lemma splitOn_none sep a :
  allChars (isNot sep) a = true -> splitOn sep a = [a].
Proof.
  induction a as [|c a IH]; intros Ha; [done|].
  cbn [allChars] in Ha. apply andb_prop in Ha as [Hc Ha].
  cbn [splitOn]. rewrite IH by done.
  unfold isNot in Hc. apply negb_true_iff in Hc. by rewrite Hc.
Qed.

Lemma cutAt_app sep a b :
  allChars (isNot sep) a = true ->
  cutAt sep (a +:+ String sep b) = (a, b).
Proof.
  induction a as [|c a IH]; intros Ha.
  - rewrite append_nil_l. cbn [cutAt]. by rewrite Ascii.eqb_refl.
  - cbn [allChars] in Ha. apply andb_prop in Ha as [Hc Ha].
    rewrite append_cons. cbn [cutAt]. rewrite IH by done.
    unfold isNot in Hc. apply negb_true_iff in Hc. by rewrite Hc.
Qed.

Lemma append_not_empty a c b : String.eqb (a +:+ String c b) "" = false.
Proof. by destruct a. Qed.

(** One [name=value] piece of a serialized query. *)
Lemma piece_reads_back name value :
  let piece := formEncode name +:+ "=" +:+ formEncode value in
  allChars (isNot "&") piece = true
  /\ allChars isQueryChar piece = true
  /\ String.eqb piece "" = false
  /\ (let '(n, v) := cutAt "=" piece in (formDecode n, formDecode v))
     = (name, value).
Proof.
  intros piece. subst piece.
  change ("=" +:+ formEncode value) with (String "=" (formEncode value)).
  pose proof (formEncode_chars name) as Hn.
  pose proof (formEncode_chars value) as Hv.
  split; [|split; [|split]].
  - rewrite allChars_app. cbn [allChars].
    rewrite (allChars_impl isEncoded (isNot "&") _ (fun c => isEncoded_isNot "&" c eq_refl) Hn).
    by rewrite (allChars_impl isEncoded (isNot "&") _ (fun c => isEncoded_isNot "&" c eq_refl) Hv).
  - rewrite allChars_app. cbn [allChars].
    rewrite (allChars_impl isEncoded isQueryChar _ isEncoded_isQueryChar Hn).
    by rewrite (allChars_impl isEncoded isQueryChar _ isEncoded_isQueryChar Hv).
  - apply append_not_empty.
  - rewrite cutAt_app
      by apply (allChars_impl isEncoded (isNot "=") _
                  (fun c => isEncoded_isNot "=" c eq_refl) Hn).
    by rewrite !formDecode_formEncode.
Qed.

Lemma parseQuery_cons piece tail :
  allChars (isNot "&") piece = true -> String.eqb piece "" = false ->
  parseQuery (piece +:+ String "&" tail) =
  (let '(n, v) := cutAt "=" piece in (formDecode n, formDecode v))
    :: parseQuery tail.
Proof.
  intros Hamp Hne. unfold parseQuery. rewrite splitOn_app by done.
  cbn [List.filter]. rewrite Hne. reflexivity.
Qed.

Lemma parseQuery_single piece :
  allChars (isNot "&") piece = true -> String.eqb piece "" = false ->
  parseQuery piece =
  [let '(n, v) := cutAt "=" piece in (formDecode n, formDecode v)].
Proof.
  intros Hamp Hne. unfold parseQuery. rewrite splitOn_none by done.
  cbn [List.filter]. rewrite Hne. reflexivity.
Qed.

(** Parsing a serialized parameter list gives the list back. *)
Lemma parseQuery_searchParamsToString params :
  parseQuery (searchParamsToString params) = params
  /\ allChars isQueryChar (searchParamsToString params) = true.
Proof.
  unfold searchParamsToString, join.
  induction params as [|[name value] params IH]; [done|].
  destruct (piece_reads_back name value) as (Hamp & Hq & Hne & Hcut).
  destruct params as [|p params].
  - cbn [List.map String.concat fst snd]. split; [|done].
    rewrite parseQuery_single by done. by rewrite Hcut.
  - destruct IH as [IH IHq].
    set (tail := String.concat "&" (List.map _ (p :: params))) in *.
    change (String.concat "&" (List.map ?f ((name, value) :: p :: params)))
      with ((formEncode name +:+ "=" +:+ formEncode value)
              +:+ String "&" tail).
    split.
    + rewrite parseQuery_cons by done. by rewrite Hcut, IH.
    + rewrite allChars_app. cbn [allChars]. by rewrite Hq, IHq.
Qed.

End LinkFacts.

(** X9. The query string of the calendar-service link, read by the
    application/x-www-form-urlencoded parser, gives back exactly the four
    parameters in order: action TEMPLATE, the event title, the dates (the
    DTSTART and DTEND timestamps of the file encoder, separated by a
    slash) and the description, whatever characters title and description
    hold; and the query is made of the characters [A-Za-z0-9*-._+%=&]
    only. *)
Theorem calendar_link_reads_back (tza : Z) (review : ScheduledReview)
    (module : LearningModule) :
  let query := searchParamsToString (linkParams tza review module) in
  generateGoogleCalendarURL tza review module =
    "https://calendar.google.com/calendar/render?" +:+ query
  /\ Reading.parseQuery query =
       [ ("action", "TEMPLATE");
         ("text", generateEventTitle review module);
         ("dates", formatICSDate tza (date review) +:+ "/"
                     +:+ formatICSDateEnd tza (date review));
         ("details", generateEventDescription review module) ]
  /\ Reading.allChars Reading.isQueryChar query = true.
Proof.
  intros query. split; [reflexivity|].
  destruct (parseQuery_searchParamsToString (linkParams tza review module))
    as [Hparse Hchars].
  split; [|exact Hchars].
  subst query. rewrite Hparse. unfold linkParams, formatICSDate, formatICSDateEnd.
  reflexivity.
Qed.

(** ** The hour of an event *)

(** X10. The event of a review starts on the review's own local calendar
    day and ends exactly one hour after it starts: the instants read from
    DTSTART and DTEND are one hour apart (for events whose UTC year has four
    digits). *)
Theorem event_lasts_one_hour (tza : Z) (d : Date) :
  let begins := setHours tza d 9 0 0 0 in
  let ends := setHours tza d 10 0 0 0 in
  0 <= YearFromTime begins <= 9999 ->
  0 <= YearFromTime ends <= 9999 ->
  isSameDay tza begins d = true
  /\ isSameDay tza ends d = true
  /\ exists ts te,
       Spec.parseCompact (formatICSDate tza d) = Some ts
       /\ Spec.parseCompact (formatICSDateEnd tza d) = Some te
       /\ Spec.instantOf te = Spec.instantOf ts + msPerHour.
Proof.
  intros begins ends Hb He.
  assert (HD : forall h, 0 <= h < 24 ->
                         Day (LocalTime tza (setHours tza d h 0 0 0))
                         = Day (LocalTime tza d)).
  { intros h Hh. rewrite setHours_local.
    unfold MakeDate, MakeTime, Day, msPerDay, msPerHour.
    Z.div_mod_to_equations. lia. }
  split; [apply isSameDay_Day, HD; lia|].
  split; [apply isSameDay_Day, HD; lia|].
  exists (Spec.utcFields begins), (Spec.utcFields ends).
  split; [unfold formatICSDate; by apply parseCompact_compactISO|].
  split; [unfold formatICSDateEnd; by apply parseCompact_compactISO|].
  rewrite !instantOf_utcFields.
  assert (Hdiff : ends = begins + msPerHour).
  { subst begins ends. unfold setHours, UTC, MakeDate, MakeTime, msPerHour. lia. }
  rewrite Hdiff. unfold msFromTime, msPerSecond, msPerHour.
  Z.div_mod_to_equations. lia.
Qed.

Lemma event_lasts_one_hour_witness :
  isSameDay 0 (setHours 0 1767225600000 9 0 0 0) 1767225600000 = true.
Proof.
  destruct (event_lasts_one_hour 0 1767225600000) as (H & _).
  - vm_compute. split; discriminate.
  - vm_compute. split; discriminate.
  - exact H.
Defined.

(** ** The lines of the calendar file *)

Section FileLines.

Import Reading.

Lemma allChars_not_elem c s :
  c ∉ list_ascii_of_string s -> allChars (isNot c) s = true.
Proof.
  induction s as [|x s IH]; [done|]. simpl.
  rewrite not_elem_of_cons. intros [Hx Hs].
  rewrite IH by done. unfold isNot.
  destruct (Ascii.eqb_spec x c) as [->|_]; [done|reflexivity].
Qed.

Lemma allChars_replaceAll p class by_ s :
  allChars p by_ = true -> allChars p s = true ->
  allChars p (replaceAll class by_ s) = true.
Proof.
  intros Hby. induction s as [|c s IH]; [done|].
  cbn [allChars replaceAll]. intros H. apply andb_prop in H as [Hc Hs].
  destruct (class c).
  - by rewrite allChars_app, Hby, IH.
  - cbn [allChars]. by rewrite Hc, IH.
Qed.

Lemma allChars_splitHead p sep s :
  allChars p s = true -> allChars p (splitHead sep s) = true.
Proof.
  induction s as [|c s IH]; [done|].
  cbn [allChars splitHead]. intros H. apply andb_prop in H as [Hc Hs].
  destruct (Ascii.eqb c sep); [done|]. cbn [allChars]. by rewrite Hc, IH.
Qed.

Lemma digits_noLF n v : allChars (isNot LF) (digits n v) = true.
Proof.
  revert v. induction n as [|k IH]; intros v; [done|].
  cbn [digits]. rewrite allChars_app, IH. cbn [allChars].
  pose proof (Z.mod_pos_bound v 10 ltac:(done)) as Hd.
  assert (Hc : v mod 10 = 0 \/ v mod 10 = 1 \/ v mod 10 = 2 \/ v mod 10 = 3
               \/ v mod 10 = 4 \/ v mod 10 = 5 \/ v mod 10 = 6
               \/ v mod 10 = 7 \/ v mod 10 = 8 \/ v mod 10 = 9) by lia.
  repeat (destruct Hc as [->|Hc]; [reflexivity|]). by rewrite Hc.
Qed.

Lemma compactISO_noLF t : allChars (isNot LF) (compactISO t) = true.
Proof.
  unfold compactISO. rewrite allChars_app.
  rewrite allChars_splitHead; [done|].
  apply allChars_replaceAll; [done|].
  unfold toISOString, isoYear.
  destruct ((0 <=? YearFromTime t) && (YearFromTime t <=? 9999)),
           (YearFromTime t <? 0);
    by rewrite ?allChars_app, ?digits_noLF.
Qed.

Lemma string_of_uint_noLF d :
  allChars (isNot LF) (NilEmpty.string_of_uint d) = true.
Proof. induction d; simpl; by rewrite ?IHd. Qed.

Lemma numberToString_noLF n : allChars (isNot LF) (numberToString n) = true.
Proof.
  unfold numberToString.
  destruct (Z.to_int n) as [d|d]; simpl.
  - destruct d; try done; simpl; apply string_of_uint_noLF.
  - destruct d; try done; simpl; apply string_of_uint_noLF.
Qed.

Lemma escapeICSText_noLF s : allChars (isNot LF) (escapeICSText s) = true.
Proof.
  apply allChars_not_elem. rewrite escapeICSText_eq. apply escapeText_no_LF.
Qed.

(** No line of an event block holds a line feed, provided the module id of
    the review holds none: the id goes into the UID line as it is. *)
Lemma eventLines_noLF tza review module :
  allChars (isNot LF) (moduleId review) = true ->
  Forall (fun line => allChars (isNot LF) line = true)
         (eventLines tza review module).
Proof.
  intros Hid. unfold eventLines, formatICSDate, formatICSDateEnd.
  repeat constructor.
  - by rewrite allChars_app, compactISO_noLF.
  - by rewrite allChars_app, compactISO_noLF.
  - by rewrite allChars_app, escapeICSText_noLF.
  - by rewrite allChars_app, escapeICSText_noLF.
  - by rewrite !allChars_app, Hid, !numberToString_noLF.
Qed.

Lemma splitLines_last a :
  allChars (isNot LF) a = true -> splitLines a = [a].
Proof.
  induction a as [|c a IH]; intros Ha; [done|].
  cbn [allChars] in Ha. apply andb_prop in Ha as [Hc Ha].
  cbn [splitLines]. rewrite IH by done.
  destruct (Ascii.eqb c CR); [|done].
  destruct a as [|c' a]; [done|].
  cbn [allChars] in Ha. apply andb_prop in Ha as [Hc' _].
  unfold isNot in Hc'. apply negb_true_iff in Hc'. by rewrite Hc'.
Qed.

Lemma splitLines_line a b :
  allChars (isNot LF) a = true ->
  splitLines (a +:+ CRLF +:+ b) = a :: splitLines b.
Proof.
  change (CRLF +:+ b) with (String CR (String LF b)).
  induction a as [|c a IH]; intros Ha.
  - rewrite append_nil_l. cbn [splitLines]. by rewrite !Ascii.eqb_refl.
  - cbn [allChars] in Ha. apply andb_prop in Ha as [Hc Ha].
    rewrite append_cons. cbn [splitLines]. rewrite IH by done.
    destruct (Ascii.eqb c CR); [|done].
    destruct a as [|c' a].
    + rewrite append_nil_l. reflexivity.
    + rewrite append_cons.
      cbn [allChars] in Ha. apply andb_prop in Ha as [Hc' _].
      unfold isNot in Hc'. apply negb_true_iff in Hc'. by rewrite Hc'.
Qed.

Lemma join_cons sep x y l :
  join sep (x :: y :: l) = x +:+ sep +:+ join sep (y :: l).
Proof. reflexivity. Qed.

Lemma splitLines_join lines :
  lines <> [] ->
  Forall (fun line => allChars (isNot LF) line = true) lines ->
  splitLines (join CRLF lines) = lines.
Proof.
  intros Hne Hall. induction Hall as [|x l Hx Hall IH]; [done|].
  destruct l as [|y l].
  - by apply splitLines_last.
  - rewrite join_cons, splitLines_line by done. by rewrite IH.
Qed.

Lemma join_app sep (l1 l2 : list string) :
  l1 <> [] -> l2 <> [] ->
  join sep (l1 ++ l2) = join sep l1 +:+ sep +:+ join sep l2.
Proof.
  intros H1 H2. induction l1 as [|x l1 IH]; [done|].
  destruct l1 as [|y l1].
  - destruct l2 as [|z l2]; [done|]. reflexivity.
  - change ((x :: y :: l1) ++ l2) with (x :: y :: (l1 ++ l2)).
    rewrite !join_cons.
    change (y :: l1 ++ l2) with ((y :: l1) ++ l2).
    rewrite IH by done. by rewrite !append_assoc.
Qed.

(** Joining blocks that are themselves joined is joining their lines. *)
Lemma join_blocks sep (blocks : list (list string)) (rest : list string) :
  Forall (fun b => b <> []) blocks -> rest <> [] ->
  join sep (List.map (join sep) blocks ++ rest) =
  join sep (concat blocks ++ rest).
Proof.
  intros Hall Hrest. induction Hall as [|b blocks Hb Hall IH]; [done|].
  assert (Hnil : forall l : list string, l ++ rest <> [])
    by (intros l [_ ?]%app_eq_nil; done).
  cbn [List.map concat]. rewrite <- app_assoc.
  rewrite (join_app sep b) by done.
  rewrite <- IH.
  change ((join sep b :: List.map (join sep) blocks) ++ rest)
    with (join sep b :: (List.map (join sep) blocks ++ rest)).
  pose proof (Hnil (List.map (join sep) blocks)) as Hne.
  destruct (List.map (join sep) blocks ++ rest) as [|y l]; [done|].
  apply join_cons.
Qed.

(** The event list of the file, block by block. *)
Lemma icsEvents_blocks tza reviews modules :
  exists blocks,
    icsEvents tza reviews modules = List.map (join CRLF) blocks
    /\ Forall2 (fun r blk =>
                  exists m, m ∈ modules /\ id m = moduleId r
                            /\ blk = eventLines tza r m)
               (List.filter (hasModule modules) reviews) blocks.
Proof.
  induction reviews as [|r reviews (blocks & Hev & HF)].
  - exists []. split; [done|constructor].
  - rewrite icsEvents_cons. cbn [List.filter].
    destruct (newMap _ !! moduleId r) as [m|] eqn:Hl.
    + apply moduleMap_lookup_Some in Hl as [Hm Hid].
      assert (Hh : hasModule modules r = true)
        by (apply hasModule_true; by exists m).
      rewrite Hh. exists (eventLines tza r m :: blocks). split.
      * cbn [List.map]. by rewrite Hev.
      * constructor; [|done]. by exists m.
    + pose proof (proj1 (moduleMap_lookup_None modules (moduleId r)) Hl) as Hn.
      assert (Hh : hasModule modules r = false) by by apply hasModule_false.
      rewrite Hh. by exists blocks.
Qed.

End FileLines.

(** X11. Cut at its CR LF line ends, the calendar file is the five header
    lines, then the seven lines of each encoded event in order, then the
    footer line, [6 + 7 k] lines for [k] reviews that have a module:
    no title, concept, question or date can break a line. This holds when
    no module id of a review holds a line feed; the id is the one text the
    encoder writes (into the UID line) without quoting it. *)
Theorem file_lines_are_header_events_footer (tza : Z)
    (reviews : list ScheduledReview) (modules : list LearningModule) :
  Forall (fun r => Reading.allChars (Reading.isNot LF) (moduleId r) = true)
         reviews ->
  exists blocks : list (list string),
    Forall2 (fun r blk =>
               exists m, m ∈ modules /\ id m = moduleId r
                         /\ blk = eventLines tza r m)
            (List.filter (hasModule modules) reviews) blocks
    /\ Reading.splitLines (generateICSFile tza reviews modules) =
         ["BEGIN:VCALENDAR"; "VERSION:2.0";
          "PRODID:-//TV Writer Explorer//Learning Schedule//EN";
          "CALSCALE:GREGORIAN"; "METHOD:PUBLISH"]
         ++ concat blocks ++ ["END:VCALENDAR"]
    /\ length (Reading.splitLines (generateICSFile tza reviews modules)) =
         (6 + 7 * length (List.filter (hasModule modules) reviews))%nat.
Proof.
  intros Hids.
  destruct (icsEvents_blocks tza reviews modules) as (blocks & Hev & HF).
  assert (Hblocks : Forall (fun blk =>
                      length blk = 7%nat
                      /\ Forall (fun line =>
                           Reading.allChars (Reading.isNot LF) line = true) blk)
                    blocks).
  { assert (Hsub : Forall (fun r =>
                     Reading.allChars (Reading.isNot LF) (moduleId r) = true)
                     (List.filter (hasModule modules) reviews)).
    { apply Forall_forall. intros r Hr. apply filter_elem_of in Hr as [Hr _].
      rewrite Forall_forall in Hids. by apply Hids. }
    clear Hev. induction HF as [|r blk rs blks (m & _ & _ & ->) HF IH];
      [constructor|].
    apply Forall_cons in Hsub as [Hr Hsub]. constructor; [|by apply IH].
    split; [reflexivity|by apply eventLines_noLF]. }
  assert (Hsplit :
    Reading.splitLines (generateICSFile tza reviews modules) =
      ["BEGIN:VCALENDAR"; "VERSION:2.0";
       "PRODID:-//TV Writer Explorer//Learning Schedule//EN";
       "CALSCALE:GREGORIAN"; "METHOD:PUBLISH"]
      ++ concat blocks ++ ["END:VCALENDAR"]).
  { unfold generateICSFile. rewrite Hev.
    assert (Hnil : forall l : list string, l ++ ["END:VCALENDAR"] <> [])
      by (intros l [_ ?]%app_eq_nil; done).
    rewrite (join_app CRLF) by done.
    rewrite join_blocks; [|eapply Forall_impl; [exact Hblocks|]|done].
    2: { intros blk [Hlen _] ->. done. }
    rewrite <- (join_app CRLF) by done.
    apply splitLines_join; [done|].
    apply Forall_app. split; [by repeat constructor|].
    apply Forall_app. split; [|by repeat constructor].
    apply Forall_concat. eapply Forall_impl; [exact Hblocks|].
    by intros blk [_ ?]. }
  exists blocks. split; [done|]. split; [done|].
  rewrite Hsplit, !length_app. cbn [length].
  apply Forall2_length in HF. rewrite HF.
  assert (Hlen : length (concat blocks) = (7 * length blocks)%nat).
  { clear -Hblocks. induction Hblocks as [|b bs [Hb _] _ IH]; [done|].
    cbn [concat]. rewrite length_app, Hb, IH. cbn [length]. lia. }
  rewrite Hlen. lia.
Qed.

Lemma file_lines_are_header_events_footer_witness :
  length (Reading.splitLines
            (generateICSFile 0
               [ {| moduleId := "ch1-scraper"; date := 0;
                    reviewNumber := 0; isInitialLearning := true |};
                 {| moduleId := "gone"; date := 0;
                    reviewNumber := 1; isInitialLearning := false |} ]
               getTutorialModules)) = 13%nat.
Proof.
  destruct (file_lines_are_header_events_footer 0
              [ {| moduleId := "ch1-scraper"; date := 0;
                   reviewNumber := 0; isInitialLearning := true |};
                {| moduleId := "gone"; date := 0;
                   reviewNumber := 1; isInitialLearning := false |} ]
              getTutorialModules) as (blocks & _ & _ & H).
  - repeat constructor.
  - exact H.
Defined.

(** ** The month shown by the calendar *)

Section MonthFacts.

(** [MakeDay] is inverted by the field functions for every day that all
    months have, with the month carried into the year. *)
Lemma MakeDay_inverse y m dt tod :
  1 <= dt <= 28 -> 0 <= tod < msPerDay ->
  let t := MakeDate (MakeDay y m dt) tod in
  Day t = MakeDay y m dt
  /\ TimeWithinDay t = tod
  /\ YearFromTime t = y + m / 12
  /\ MonthFromTime t = m mod 12
  /\ DateFromTime t = dt.
Proof.
  intros Hdt Htod t.
  assert (Hday : Day t = MakeDay y m dt).
  { subst t. unfold MakeDate, Day. unfold msPerDay in *.
    Z.div_mod_to_equations. lia. }
  assert (Htw : TimeWithinDay t = tod).
  { subst t. unfold MakeDate, TimeWithinDay. unfold msPerDay in *.
    Z.div_mod_to_equations. lia. }
  split; [done|]. split; [done|].
  unfold MakeDay in Hday.
  pose proof (Z.mod_pos_bound m 12 ltac:(done)) as Hmn.
  set (ym := y + m / 12) in *. set (mn := m mod 12) in *.
  set (leap := if DaysInYear ym =? 366 then 1 else 0) in *.
  assert (Hleap : DaysInYear ym = 365 + leap).
  { subst leap. unfold DaysInYear. case_eqb; reflexivity. }
  assert (Hl : leap = 0 \/ leap = 1) by (subst leap; destruct (_ =? _); auto).
  assert (Hms : 0 <= monthStart leap mn <= 334 + leap).
  { month_cases mn Hc.
    repeat (destruct Hc as [->|Hc]; [simpl; lia|]). rewrite Hc. simpl. lia. }
  assert (Hy : YearFromTime t = ym).
  { unfold YearFromTime. apply YearFromDay_unique.
    rewrite DayFromYear_succ, Hday, Hleap. lia. }
  assert (Hin : InLeapYear t = leap) by (unfold InLeapYear; by rewrite Hy).
  assert (Hdwy : DayWithinYear t = monthStart leap mn + dt - 1).
  { unfold DayWithinYear. rewrite Hy, Hday. lia. }
  assert (Hmo : MonthFromTime t = mn).
  { unfold MonthFromTime. rewrite Hin, Hdwy.
    month_cases mn Hc. unfold monthOfYearDay.
    repeat (destruct Hc as [->|Hc]; [simpl monthStart; case_ltb; lia|]).
    rewrite Hc. simpl monthStart. case_ltb; lia. }
  split; [done|]. split; [done|].
  unfold DateFromTime. rewrite Hin, Hmo, Hdwy. lia.
Qed.

(** Only the month counted from year 0 matters to [MakeDay]. *)
Lemma MakeDay_months y1 m1 y2 m2 dt :
  12 * y1 + m1 = 12 * y2 + m2 -> MakeDay y1 m1 dt = MakeDay y2 m2 dt.
Proof.
  intros H. unfold MakeDay.
  assert (Hy : y1 + m1 / 12 = y2 + m2 / 12) by (Z.div_mod_to_equations; lia).
  assert (Hm : m1 mod 12 = m2 mod 12) by (Z.div_mod_to_equations; lia).
  by rewrite Hy, Hm.
Qed.

Lemma TimeWithinDay_range t : 0 <= TimeWithinDay t < msPerDay.
Proof. unfold TimeWithinDay. by apply Z.mod_pos_bound. Qed.

Lemma LocalTime_UTC tza t : LocalTime tza (UTC tza t) = t.
Proof. unfold LocalTime, UTC. lia. Qed.

Lemma UTC_LocalTime tza t : UTC tza (LocalTime tza t) = t.
Proof. unfold LocalTime, UTC. lia. Qed.

Lemma setMonth_unfold tza d mo :
  LocalTime tza (setMonth tza d mo) =
  MakeDate (MakeDay (getFullYear tza d) mo (getDate tza d))
           (TimeWithinDay (LocalTime tza d)).
Proof. unfold setMonth. by rewrite LocalTime_UTC. Qed.

(** [setMonth] on a day of the month not after the 28th. *)
Lemma setMonth_fields tza d mo :
  getDate tza d <= 28 ->
  Day (LocalTime tza (setMonth tza d mo)) =
    MakeDay (getFullYear tza d) mo (getDate tza d)
  /\ TimeWithinDay (LocalTime tza (setMonth tza d mo)) =
       TimeWithinDay (LocalTime tza d)
  /\ getFullYear tza (setMonth tza d mo) = getFullYear tza d + mo / 12
  /\ getMonth tza (setMonth tza d mo) = mo mod 12
  /\ getDate tza (setMonth tza d mo) = getDate tza d.
Proof.
  intros H28.
  pose proof (DateFromTime_range (LocalTime tza d)) as Hd.
  pose proof (TimeWithinDay_range (LocalTime tza d)) as Ht.
  change (DateFromTime (LocalTime tza d)) with (getDate tza d) in Hd.
  pose proof (MakeDay_inverse (getFullYear tza d) mo (getDate tza d)
                (TimeWithinDay (LocalTime tza d)) ltac:(lia) Ht) as Hinv.
  cbv zeta in Hinv. rewrite <- setMonth_unfold in Hinv. exact Hinv.
Qed.

(** Setting the month back gives the date one started from. *)
Lemma setMonth_back tza d mo mo' :
  getDate tza d <= 28 ->
  12 * (getFullYear tza d + mo / 12) + mo' = 12 * getFullYear tza d
                                              + getMonth tza d ->
  setMonth tza (setMonth tza d mo) mo' = d.
Proof.
  intros H28 Hback.
  destruct (setMonth_fields tza d mo H28) as (_ & Htw & Hy & _ & Hdt).
  rewrite <- (UTC_LocalTime tza (setMonth tza (setMonth tza d mo) mo')).
  rewrite setMonth_unfold, Hy, Hdt, Htw.
  rewrite (MakeDay_months _ mo' (getFullYear tza d) (getMonth tza d)) by done.
  unfold getFullYear, getMonth, getDate. rewrite <- Day_fields.
  replace (Day (LocalTime tza d)) with (Day (LocalTime tza d) + 0) by lia.
  rewrite MakeDate_Day. unfold UTC, LocalTime. lia.
Qed.

(** The cells of the grid, by index. *)
Lemma generateCalendarDays_lookup tza startDate (i : nat) :
  (i < 42)%nat ->
  generateCalendarDays tza startDate !! i =
  Some (Spec.plusDays startDate (Z.of_nat i - getDay tza startDate)).
Proof.
  intros Hi. unfold generateCalendarDays.
  rewrite list_lookup_fmap, lookup_seq_lt by done. cbn [fmap option_fmap option_map].
  rewrite firstDayOfGrid_eq, addDays_eq. unfold Spec.plusDays. f_equal. lia.
Qed.

Lemma firstOfMonth_Day tza cm :
  ~ (0 <= getFullYear tza cm <= 99) ->
  Day (LocalTime tza (firstOfMonth tza cm)) =
    MakeDay (getFullYear tza cm) (getMonth tza cm) 1.
Proof.
  intros Hy. unfold firstOfMonth, dateConstructor.
  assert (Hb : (0 <=? getFullYear tza cm) && (getFullYear tza cm <=? 99) = false).
  { apply andb_false_iff.
    destruct (Z.leb_spec 0 (getFullYear tza cm)); [|by left].
    destruct (Z.leb_spec (getFullYear tza cm) 99); [lia|by right]. }
  rewrite Hb. unfold newDateYMD. rewrite LocalTime_UTC.
  apply MakeDay_inverse; [lia|done].
Qed.

Lemma getDay_range tza d : 0 <= getDay tza d <= 6.
Proof. apply WeekDay_range. Qed.

Lemma getDate_range tza d : 1 <= getDate tza d <= 31.
Proof. apply DateFromTime_range. Qed.

Lemma getMonth_range tza d : 0 <= getMonth tza d <= 11.
Proof. apply MonthFromTime_range. Qed.

Lemma MakeDay_date y m dt : MakeDay y m dt = MakeDay y m 1 + (dt - 1).
Proof. unfold MakeDay. lia. Qed.

End MonthFacts.

(** X12. The month grid shows every day of the month it is built for: a date
    in the year and month of [calendarMonth] is the same day as the cell at
    index (weekday of the first of the month) + (day of the month) - 1, which
    is one of the first 37 cells, and that cell is marked as in the current
    month. The year is taken outside 0..99, where [new Date(y, m, 1)] means
    the year 1900 + y. *)
Theorem month_grid_shows_every_day (tza : Z) (calendarMonth d : Date) :
  ~ (0 <= getFullYear tza calendarMonth <= 99) ->
  getFullYear tza d = getFullYear tza calendarMonth ->
  getMonth tza d = getMonth tza calendarMonth ->
  exists (i : nat) (cell : Date),
    Z.of_nat i = getDay tza (firstOfMonth tza calendarMonth) + getDate tza d - 1
    /\ (i < 37)%nat
    /\ calendarDays tza calendarMonth !! i = Some cell
    /\ isSameDay tza cell d = true
    /\ isCurrentMonth tza calendarMonth cell = true.
Proof.
  intros Hy Hsy Hsm.
  set (fom := firstOfMonth tza calendarMonth).
  pose proof (getDay_range tza fom) as Hw.
  pose proof (getDate_range tza d) as Hd.
  set (k := getDay tza fom + getDate tza d - 1).
  assert (Hk : 0 <= k < 37) by (subst k; lia).
  exists (Z.to_nat k), (Spec.plusDays fom (k - getDay tza fom)).
  assert (Hcell : Day (LocalTime tza (Spec.plusDays fom (k - getDay tza fom)))
                  = Day (LocalTime tza d)).
  { rewrite LocalTime_plusDays, Day_plusDays.
    subst fom. rewrite firstOfMonth_Day by done.
    rewrite (Day_fields (LocalTime tza d)).
    fold (getFullYear tza d) (getMonth tza d) (getDate tza d).
    rewrite Hsy, Hsm, (MakeDay_date _ _ (getDate tza d)). subst k. lia. }
  split; [lia|]. split; [lia|]. split.
  - unfold calendarDays. fold fom.
    rewrite generateCalendarDays_lookup by lia.
    by rewrite Z2Nat.id by lia.
  - split; [by apply isSameDay_Day|].
    unfold isCurrentMonth. apply Z.eqb_eq.
    destruct (fields_of_Day _ _ Hcell) as (_ & Hm & _).
    unfold getMonth at 1. rewrite Hm. exact Hsm.
Qed.

Lemma month_grid_shows_every_day_witness :
  exists (i : nat) (cell : Date),
    Z.of_nat i = 4 + 17 - 1
    /\ (i < 37)%nat
    /\ calendarDays 0 (newDateYMD 0 2026 0 9) !! i = Some cell
    /\ isSameDay 0 cell (newDateYMD 0 2026 0 17) = true
    /\ isCurrentMonth 0 (newDateYMD 0 2026 0 9) cell = true.
Proof.
  apply (month_grid_shows_every_day 0 (newDateYMD 0 2026 0 9)
           (newDateYMD 0 2026 0 17)).
  - vm_compute. intros [_ H]. by apply H.
  - vm_compute. reflexivity.
  - vm_compute. reflexivity.
Defined.

(** X13. From a date whose day of the month is at most 28, the Next and
    Previous buttons move the shown month by exactly one, over the end of
    the year too, keeping the day of the month and the time of day, and each
    undoes the other. *)
Theorem month_buttons_step_by_one (tza : Z) (d : Date) :
  getDate tza d <= 28 ->
  (12 * getFullYear tza (nextMonth tza d) + getMonth tza (nextMonth tza d) =
     12 * getFullYear tza d + getMonth tza d + 1
   /\ getMonth tza (nextMonth tza d) = (getMonth tza d + 1) mod 12
   /\ getDate tza (nextMonth tza d) = getDate tza d
   /\ TimeWithinDay (LocalTime tza (nextMonth tza d)) =
        TimeWithinDay (LocalTime tza d))
  /\ (12 * getFullYear tza (prevMonth tza d) + getMonth tza (prevMonth tza d) =
        12 * getFullYear tza d + getMonth tza d - 1
      /\ getMonth tza (prevMonth tza d) = (getMonth tza d - 1) mod 12
      /\ getDate tza (prevMonth tza d) = getDate tza d
      /\ TimeWithinDay (LocalTime tza (prevMonth tza d)) =
           TimeWithinDay (LocalTime tza d))
  /\ prevMonth tza (nextMonth tza d) = d
  /\ nextMonth tza (prevMonth tza d) = d.
Proof.
  intros H28.
  pose proof (getMonth_range tza d) as Hm.
  unfold nextMonth, prevMonth.
  destruct (setMonth_fields tza d (getMonth tza d + 1) H28)
    as (_ & Htn & Hyn & Hmn & Hdn).
  destruct (setMonth_fields tza d (getMonth tza d - 1) H28)
    as (_ & Htp & Hyp & Hmp & Hdp).
  split; [|split; [|split]].
  - rewrite Hyn, Hmn. repeat split; try done. Z.div_mod_to_equations. lia.
  - rewrite Hyp, Hmp. repeat split; try done. Z.div_mod_to_equations. lia.
  - apply setMonth_back; [done|]. rewrite Hmn.
    Z.div_mod_to_equations. lia.
  - apply setMonth_back; [done|]. rewrite Hmp.
    Z.div_mod_to_equations. lia.
Qed.

Lemma month_buttons_step_by_one_witness :
  getMonth 0 (nextMonth 0 (newDateYMD 0 2026 11 15)) = 0
  /\ getFullYear 0 (nextMonth 0 (newDateYMD 0 2026 11 15)) = 2027
  /\ prevMonth 0 (nextMonth 0 (newDateYMD 0 2026 11 15)) =
       newDateYMD 0 2026 11 15.
Proof.
  destruct (month_buttons_step_by_one 0 (newDateYMD 0 2026 11 15))
    as ((Hym & Hmo & _) & _ & Hback & _).
  - vm_compute. discriminate.
  - split; [exact Hmo|]. split; [|exact Hback].
    rewrite Hmo in Hym.
    change ((getMonth 0 (newDateYMD 0 2026 11 15) + 1) mod 12) with 0 in Hym.
    change (getFullYear 0 (newDateYMD 0 2026 11 15)) with 2026 in Hym.
    change (getMonth 0 (newDateYMD 0 2026 11 15)) with 11 in Hym.
    lia.
Defined.

(** ** Identifiers of the generated events *)

Section Identifiers.

(** The text of a UID up to and including the dash after the review
    number. *)
Local Abbreviation uidHead r :=
  (moduleId r +:+ "-r" +:+ numberToString (reviewNumber r) +:+ "-").

Lemma prefix_of_app p1 p2 s1 s2 :
  p1 +:+ s1 = p2 +:+ s2 -> String.prefix p1 p2 = true \/ String.prefix p2 p1 = true.
Proof.
  revert p2. induction p1 as [|a p1 IH]; intros [|b p2] H.
  - by left.
  - by left.
  - by right.
  - rewrite !append_cons in H. injection H as -> H.
    destruct (IH _ H) as [Hp|Hp]; [left|right]; cbn [String.prefix];
      by destruct (ascii_dec b b).
Qed.

Lemma uid_head mid n t :
  Spec.uid mid n t =
  (mid +:+ "-r" +:+ numberToString n +:+ "-")
    +:+ (numberToString t +:+ "@tvwriter-explorer").
Proof. unfold Spec.uid. by rewrite !append_assoc. Qed.

(** Elements of a list are told apart by a function whose values on the
    list are distinct. *)
Lemma NoDup_fmap_eq {A B : Type} (f : A -> B) (l : list A) x y :
  NoDup (List.map f l) -> x ∈ l -> y ∈ l -> f x = f y -> x = y.
Proof.
  intros Hnd Hx Hy Hf.
  apply list_elem_of_lookup in Hx as [i Hi], Hy as [j Hj].
  assert (i = j) as ->.
  { eapply NoDup_lookup; [exact Hnd| |].
    - by rewrite list_lookup_fmap, Hi.
    - rewrite list_lookup_fmap, Hj. cbn. by rewrite Hf. }
  congruence.
Qed.

(** The ids and review numbers of a module's events do not depend on the
    start date. *)
Lemma moduleEvents_shape start i m r :
  r ∈ Spec.moduleEvents start i m ->
  exists r0, r0 ∈ Spec.moduleEvents 0 i m
             /\ moduleId r = moduleId r0
             /\ reviewNumber r = reviewNumber r0.
Proof.
  intros Hr.
  apply (list_elem_of_fmap_2 (fun r => (moduleId r, reviewNumber r))) in Hr.
  change ((fun r => (moduleId r, reviewNumber r)) <$> Spec.moduleEvents start i m)
    with ((fun r => (moduleId r, reviewNumber r)) <$> Spec.moduleEvents 0 i m)
    in Hr.
  apply list_elem_of_fmap in Hr as (r0 & Hk & Hr0).
  exists r0. split; [done|]. by injection Hk.
Qed.

(** Within one module, the review number tells the events apart. *)
Lemma moduleEvents_number start i m r1 r2 :
  r1 ∈ Spec.moduleEvents start i m ->
  r2 ∈ Spec.moduleEvents start i m ->
  reviewNumber r1 = reviewNumber r2 -> r1 = r2.
Proof.
  apply NoDup_fmap_eq.
  change (NoDup [0; 1; 2; 3; 4; 5; 6]).
  apply (bool_decide_unpack _). vm_compute. exact I.
Qed.

Lemma generated_review_position tza start modules r :
  r ∈ reviews (generateSchedule tza start modules) ->
  exists i m, modules !! i = Some m /\ r ∈ Spec.moduleEvents start i m.
Proof.
  rewrite reviews_perm. intros Hr.
  apply list_elem_of_In, in_concat in Hr as (blk & Hblk & Hr).
  apply list_elem_of_In, elem_of_lookup_imap in Hblk as (i & m & -> & Hm).
  exists i, m. split; [done|by apply list_elem_of_In].
Qed.

(** In a schedule generated from modules with distinct ids, the module id
    and the review number determine the event. *)
Lemma generated_review_key tza start modules r1 r2 :
  NoDup (List.map id modules) ->
  r1 ∈ reviews (generateSchedule tza start modules) ->
  r2 ∈ reviews (generateSchedule tza start modules) ->
  moduleId r1 = moduleId r2 -> reviewNumber r1 = reviewNumber r2 ->
  r1 = r2.
Proof.
  intros Hnd H1 H2 Hid Hn.
  apply generated_review_position in H1 as (i1 & m1 & Hm1 & H1).
  apply generated_review_position in H2 as (i2 & m2 & Hm2 & H2).
  pose proof (moduleEvents_ids start i1 m1) as Hid1.
  pose proof (moduleEvents_ids start i2 m2) as Hid2.
  rewrite Forall_forall in Hid1, Hid2.
  pose proof (Hid1 _ H1) as H1'. pose proof (Hid2 _ H2) as H2'.
  assert (Hi : i1 = i2).
  { eapply NoDup_lookup; [exact Hnd| |].
    - by rewrite list_lookup_fmap, Hm1.
    - rewrite list_lookup_fmap, Hm2. cbn. congruence. }
  subst i2. assert (m2 = m1) as -> by congruence.
  by eapply moduleEvents_number.
Qed.

(** The heads of the identifiers of the tutorial's events: none is the
    beginning of another. *)
Lemma tutorial_uid_heads :
  forallb (fun a =>
    forallb (fun b =>
      implb (String.prefix (uidHead a) (uidHead b))
            (String.eqb (moduleId a) (moduleId b)
             && (reviewNumber a =? reviewNumber b)))
      (concat (imap (Spec.moduleEvents 0) getTutorialModules)))
    (concat (imap (Spec.moduleEvents 0) getTutorialModules)) = true.
Proof. vm_compute. reflexivity. Qed.

Lemma tutorial_uid_head_prefix r1 r2 :
  r1 ∈ concat (imap (Spec.moduleEvents 0) getTutorialModules) ->
  r2 ∈ concat (imap (Spec.moduleEvents 0) getTutorialModules) ->
  String.prefix (uidHead r1) (uidHead r2) = true ->
  moduleId r1 = moduleId r2 /\ reviewNumber r1 = reviewNumber r2.
Proof.
  intros H1 H2 Hp.
  pose proof tutorial_uid_heads as Hall.
  rewrite forallb_forall in Hall.
  specialize (Hall r1 (proj1 (list_elem_of_In _ _) H1)).
  rewrite forallb_forall in Hall.
  specialize (Hall r2 (proj1 (list_elem_of_In _ _) H2)).
  rewrite Hp in Hall. cbn [implb] in Hall.
  apply andb_prop in Hall as [Hid Hn].
  split; [by apply String.eqb_eq|by apply Z.eqb_eq].
Qed.

Lemma tutorial_ids_distinct : NoDup (List.map id getTutorialModules).
Proof. apply (bool_decide_unpack _). vm_compute. exact I. Qed.

End Identifiers.


